(** * Webhook ingestion service: idempotent storage, queries and statistics

    A shallow embedding of [app/models.py], [app/storage.py] and the webhook
    handler of [app/main.py], together with the library behaviour the code
    relies on (Python [str] and [datetime], [hmac]/[hashlib], the regular
    expression of the phone validator, SQLite's comparison, [LIKE],
    [ORDER BY] and [LIMIT]/[OFFSET]). *)

From Stdlib Require Import ZArith List Bool String Ascii Lia DecimalString.
From Stdlib Require Import Sorting.Sorted Sorting.Permutation.
Import ListNotations.
Local Open Scope Z_scope.

(** ** Python strings

    A Python [str] is a sequence of Unicode code points.  [len] counts code
    points, and SQLite's default BINARY collation (byte order of the UTF-8
    encoding) agrees with code point order. *)

Definition str := list Z.
Definition bytes := list Z.

Definition u (s : string) : str :=
  map (fun a => Z.of_N (N_of_ascii a)) (list_ascii_of_string s).

Definition len {A} (l : list A) : Z := Z.of_nat (List.length l).

Fixpoint str_eqb (a b : str) : bool :=
  match a, b with
  | [], [] => true
  | x :: a', y :: b' => (x =? y) && str_eqb a' b'
  | _, _ => false
  end.

(** Lexicographic comparison, the order of [memcmp] on the UTF-8 text. *)
Fixpoint str_compare (a b : str) : comparison :=
  match a, b with
  | [], [] => Eq
  | [], _ :: _ => Lt
  | _ :: _, [] => Gt
  | x :: a', y :: b' =>
      match x ?= y with
      | Eq => str_compare a' b'
      | c => c
      end
  end.

Definition str_leb (a b : str) : bool :=
  match str_compare a b with Gt => false | _ => true end.

(** [str.isspace] on one character: the code points CPython's
    [_PyUnicode_IsWhitespace] lists. *)
Definition isspace (c : Z) : bool :=
  ((9 <=? c) && (c <=? 13)) || ((28 <=? c) && (c <=? 32))
  || (c =? 133) || (c =? 160) || (c =? 5760)
  || ((8192 <=? c) && (c <=? 8202))
  || (c =? 8232) || (c =? 8233) || (c =? 8239) || (c =? 8287) || (c =? 12288).

Fixpoint lstrip (s : str) : str :=
  match s with
  | c :: s' => if isspace c then lstrip s' else s
  | [] => []
  end.

Definition rstrip (s : str) : str := rev (lstrip (rev s)).

(** [v.strip()] *)
Definition strip (s : str) : str := rstrip (lstrip s).

(** Truthiness of a [str]: the empty string is falsy. *)
Definition truthy (s : str) : bool :=
  match s with [] => false | _ => true end.

Definition is_ascii (s : str) : bool :=
  forallb (fun c => (0 <=? c) && (c <? 128)) s.

(** ** Results of computations that may raise *)

Inductive result (E A : Type) : Type :=
| Ok (a : A)
| Raise (e : E).
Arguments Ok {E A} a.
Arguments Raise {E A} e.

Definition obind {A B} (m : option A) (k : A -> option B) : option B :=
  match m with
  | Some a => k a
  | None => None
  end.

Notation "x <- m ;; k" := (obind m (fun x => k))
  (at level 61, m at next level, right associativity).
Notation "' pat <- m ;; k" := (obind m (fun x => match x with pat => k end))
  (at level 61, pat pattern, m at next level, right associativity).

(** ** [datetime]

    The fields of a Python [datetime]; [tzinfo] is the UTC offset in seconds
    of an aware value ([None] for a naive one), as the fixed-offset time zones
    produced by parsing ISO-8601 text carry it. *)

Record datetime : Type := mkDatetime {
  year : Z; month : Z; day : Z;
  hour : Z; minute : Z; second : Z; microsecond : Z;
  tzinfo : option Z
}.

Definition is_leap (y : Z) : bool :=
  ((y mod 4 =? 0) && negb (y mod 100 =? 0)) || (y mod 400 =? 0).

Definition days_in_month (y m : Z) : Z :=
  if m =? 2 then (if is_leap y then 29 else 28)
  else if (m =? 4) || (m =? 6) || (m =? 9) || (m =? 11) then 30 else 31.

Definition between (lo x hi : Z) : bool := (lo <=? x) && (x <=? hi).

(** The ranges the [datetime] constructor enforces. *)
Definition valid_datetime (d : datetime) : bool :=
  between 1 (year d) 9999 && between 1 (month d) 12
  && between 1 (day d) (days_in_month (year d) (month d))
  && between 0 (hour d) 23 && between 0 (minute d) 59
  && between 0 (second d) 59 && between 0 (microsecond d) 999999
  && match tzinfo d with
     | None => true
     | Some off => (-86400 <? off) && (off <? 86400)
     end.

(** [n] decimal digits of [v], most significant first (["%0nd" % v]). *)
Fixpoint pad (n : nat) (v : Z) : str :=
  match n with
  | O => []
  | S n' => (48 + (v / 10 ^ Z.of_nat n') mod 10) :: pad n' v
  end.

Definition format_offset (tz : option Z) : str :=
  match tz with
  | None => []
  | Some off =>
      let sign := if off <? 0 then 45 else 43 in
      let a := Z.abs off in
      let hh := a / 3600 in
      let mm := (a mod 3600) / 60 in
      let ss := a mod 60 in
      sign :: pad 2 hh ++ [58] ++ pad 2 mm
        ++ (if ss =? 0 then [] else 58 :: pad 2 ss)
  end.

(** [datetime.isoformat()]: [YYYY-MM-DDTHH:MM:SS[.ffffff][+HH:MM[:SS]]]. *)
Definition isoformat (d : datetime) : str :=
  pad 4 (year d) ++ [45] ++ pad 2 (month d) ++ [45] ++ pad 2 (day d) ++ [84]
    ++ pad 2 (hour d) ++ [58] ++ pad 2 (minute d) ++ [58] ++ pad 2 (second d)
    ++ (if microsecond d =? 0 then [] else 46 :: pad 6 (microsecond d))
    ++ format_offset (tzinfo d).

Definition is_digit (c : Z) : bool := between 48 c 57.

(** Reads exactly [n] ASCII digits. *)
Fixpoint take_num (n : nat) (acc : Z) (s : str) : option (Z * str) :=
  match n with
  | O => Some (acc, s)
  | S n' =>
      match s with
      | c :: s' => if is_digit c then take_num n' (10 * acc + (c - 48)) s' else None
      | [] => None
      end
  end.

Definition expect (c : Z) (s : str) : option str :=
  match s with
  | x :: s' => if x =? c then Some s' else None
  | [] => None
  end.

(** The UTC offset suffix: nothing (naive), or a sign and [HH:MM[:SS]]. *)
Definition parse_offset (s : str) : option (option Z) :=
  match s with
  | [] => Some None
  | c :: s0 =>
      if (c =? 43) || (c =? 45) then
        '(hh, s1) <- take_num 2 0 s0 ;;
        s2 <- expect 58 s1 ;;
        '(mm, s3) <- take_num 2 0 s2 ;;
        '(ss, s4) <- match s3 with
                     | [] => Some (0, [])
                     | _ => s5 <- expect 58 s3 ;; take_num 2 0 s5
                     end ;;
        match s4 with
        | [] =>
            let a := hh * 3600 + mm * 60 + ss in
            if (mm <=? 59) && (ss <=? 59)
            then Some (Some (if c =? 45 then - a else a))
            else None
        | _ => None
        end
      else None
  end.

(** [datetime.fromisoformat] on the texts [isoformat] writes; [None] stands
    for [ValueError]. *)
Definition fromisoformat (s : str) : option datetime :=
  '(y, s) <- take_num 4 0 s ;;
  s <- expect 45 s ;;
  '(mo, s) <- take_num 2 0 s ;;
  s <- expect 45 s ;;
  '(d, s) <- take_num 2 0 s ;;
  s <- expect 84 s ;;
  '(h, s) <- take_num 2 0 s ;;
  s <- expect 58 s ;;
  '(mi, s) <- take_num 2 0 s ;;
  s <- expect 58 s ;;
  '(sec, s) <- take_num 2 0 s ;;
  '(us, s) <- match s with
              | 46 :: s' => take_num 6 0 s'
              | _ => Some (0, s)
              end ;;
  tz <- parse_offset s ;;
  let r := mkDatetime y mo d h mi sec us tz in
  if valid_datetime r then Some r else None.

(** Days before January 1st of year [y], and the proleptic Gregorian ordinal
    of a date, as [datetime.toordinal] computes them. *)
Definition days_before_year (y : Z) : Z :=
  let p := y - 1 in p * 365 + p / 4 - p / 100 + p / 400.

Definition days_before_month (y m : Z) : Z :=
  nth (Z.to_nat (m - 1)) [0; 31; 59; 90; 120; 151; 181; 212; 243; 273; 304; 334] 0
  + (if (2 <? m) && is_leap y then 1 else 0).

Definition toordinal (d : datetime) : Z :=
  days_before_year (year d) + days_before_month (year d) (month d) + day d.

(** Microseconds since the epoch of the ordinal, in UTC: the instant an aware
    value denotes (a naive value is read with offset 0). *)
Definition utc_micros (d : datetime) : Z :=
  ((((toordinal d * 24 + hour d) * 60 + minute d) * 60 + second d)
   - match tzinfo d with Some off => off | None => 0 end) * 1000000
  + microsecond d.

(** Python's comparison of two datetimes: by instant; comparing a naive with
    an aware value raises [TypeError] ([None]). *)
Definition datetime_compare (a b : datetime) : option comparison :=
  match tzinfo a, tzinfo b with
  | Some _, Some _ | None, None => Some (utc_micros a ?= utc_micros b)
  | _, _ => None
  end.

(** ** [hashlib.sha256] and [hmac]

    SHA-256 as FIPS 180-4 defines it, on bytes and 32-bit words held in [Z]
    with the wrap-around written out, and HMAC as RFC 2104 builds it. *)

Module Hashlib.

Definition w32 (x : Z) : Z := x mod 2 ^ 32.

Definition rotr (n x : Z) : Z :=
  Z.lor (Z.shiftr x n) (w32 (Z.shiftl x (32 - n))).

Definition lnot32 (x : Z) : Z := Z.lxor x 4294967295.

Definition Ch (x y z : Z) : Z := Z.lxor (Z.land x y) (Z.land (lnot32 x) z).
Definition Maj (x y z : Z) : Z :=
  Z.lxor (Z.lxor (Z.land x y) (Z.land x z)) (Z.land y z).
Definition Sigma0 (x : Z) : Z := Z.lxor (Z.lxor (rotr 2 x) (rotr 13 x)) (rotr 22 x).
Definition Sigma1 (x : Z) : Z := Z.lxor (Z.lxor (rotr 6 x) (rotr 11 x)) (rotr 25 x).
Definition sigma0 (x : Z) : Z := Z.lxor (Z.lxor (rotr 7 x) (rotr 18 x)) (Z.shiftr x 3).
Definition sigma1 (x : Z) : Z := Z.lxor (Z.lxor (rotr 17 x) (rotr 19 x)) (Z.shiftr x 10).

Definition K : list Z :=
  [1116352408; 1899447441; 3049323471; 3921009573; 961987163; 1508970993;
   2453635748; 2870763221; 3624381080; 310598401; 607225278; 1426881987;
   1925078388; 2162078206; 2614888103; 3248222580; 3835390401; 4022224774;
   264347078; 604807628; 770255983; 1249150122; 1555081692; 1996064986;
   2554220882; 2821834349; 2952996808; 3210313671; 3336571891; 3584528711;
   113926993; 338241895; 666307205; 773529912; 1294757372; 1396182291;
   1695183700; 1986661051; 2177026350; 2456956037; 2730485921; 2820302411;
   3259730800; 3345764771; 3516065817; 3600352804; 4094571909; 275423344;
   430227734; 506948616; 659060556; 883997877; 958139571; 1322822218;
   1537002063; 1747873779; 1955562222; 2024104815; 2227730452; 2361852424;
   2428436474; 2756734187; 3204031479; 3329325298].

(** Big-endian bytes of a value, [n] of them. *)
Fixpoint be_bytes (n : nat) (v : Z) : bytes :=
  match n with
  | O => []
  | S n' => (v / 256 ^ Z.of_nat n') mod 256 :: be_bytes n' v
  end.

Definition be_word (b : bytes) : Z :=
  fold_left (fun acc x => acc * 256 + x) b 0.

(** The message followed by [0x80], zeros up to 56 modulo 64, and the bit
    length on 8 bytes. *)
Definition padding (m : bytes) : bytes :=
  let l := len m in
  let z := (55 - l) mod 64 in
  m ++ [128] ++ repeat 0 (Z.to_nat z) ++ be_bytes 8 (8 * l).

Fixpoint chunks (fuel : nat) (sz : nat) (b : bytes) : list bytes :=
  match fuel with
  | O => []
  | S fuel' =>
      match b with
      | [] => []
      | _ => firstn sz b :: chunks fuel' sz (skipn sz b)
      end
  end.

Definition words (block : bytes) : list Z :=
  map be_word (chunks 16 4 block).

(** The message schedule: 16 words of the block, then 48 derived ones. *)
Fixpoint extend (n : nat) (w : list Z) : list Z :=
  match n with
  | O => w
  | S n' =>
      let t := List.length w in
      let x := w32 (sigma1 (nth (t - 2) w 0) + nth (t - 7) w 0
                    + sigma0 (nth (t - 15) w 0) + nth (t - 16) w 0) in
      extend n' (w ++ [x])
  end.

Definition state : Type := (Z * Z * Z * Z * Z * Z * Z * Z)%type.

Definition round (s : state) (kw : Z * Z) : state :=
  let '(a, b, c, d, e, f, g, h) := s in
  let '(k, w) := kw in
  let t1 := w32 (h + Sigma1 e + Ch e f g + k + w) in
  let t2 := w32 (Sigma0 a + Maj a b c) in
  (w32 (t1 + t2), a, b, c, w32 (d + t1), e, f, g).

Definition compress (s : state) (block : bytes) : state :=
  let '(a, b, c, d, e, f, g, h) := s in
  let '(a', b', c', d', e', f', g', h') :=
    fold_left round (combine K (extend 48 (words block))) s in
  (w32 (a + a'), w32 (b + b'), w32 (c + c'), w32 (d + d'),
   w32 (e + e'), w32 (f + f'), w32 (g + g'), w32 (h + h')).

Definition init : state :=
  (1779033703, 3144134277, 1013904242, 2773480762,
   1359893119, 2600822924, 528734635, 1541459225).

(** [hashlib.sha256(m).digest()] *)
Definition sha256 (m : bytes) : bytes :=
  let p := padding m in
  let '(a, b, c, d, e, f, g, h) :=
    fold_left compress (chunks (List.length p) 64 p) init in
  flat_map (be_bytes 4) [a; b; c; d; e; f; g; h].

Definition hex_digit (n : Z) : Z := if n <? 10 then 48 + n else 87 + n.

(** [bytes.hex()], lower case. *)
Definition hex (b : bytes) : str :=
  flat_map (fun x => [hex_digit ((x / 16) mod 16); hex_digit (x mod 16)]) b.

End Hashlib.

Module Hmac.

Definition block_size : Z := 64.

Definition xor_pad (c : Z) (k : bytes) : bytes := map (Z.lxor c) k.

(** [hmac.new(key, msg, hashlib.sha256).hexdigest()] *)
Definition hexdigest (key msg : bytes) : str :=
  let k0 := if block_size <? len key then Hashlib.sha256 key else key in
  let k := k0 ++ repeat 0 (Z.to_nat (block_size - len k0)) in
  Hashlib.hex
    (Hashlib.sha256 (xor_pad 92 k ++ Hashlib.sha256 (xor_pad 54 k ++ msg))).

(** [hmac.compare_digest] on two [str]: both must be ASCII, otherwise
    [TypeError]; the answer is equality. *)
Definition compare_digest (a b : str) : result string bool :=
  if is_ascii a && is_ascii b then Ok (str_eqb a b)
  else Raise "TypeError"%string.

End Hmac.

(** [str.encode()]: UTF-8; a surrogate code point cannot be encoded
    ([UnicodeEncodeError], [None]). *)
Definition encode_char (c : Z) : option bytes :=
  if c <? 0 then None
  else if c <? 128 then Some [c]
  else if c <? 2048 then Some [192 + c / 64; 128 + c mod 64]
  else if (55296 <=? c) && (c <=? 57343) then None
  else if c <? 65536 then
    Some [224 + c / 4096; 128 + (c / 64) mod 64; 128 + c mod 64]
  else if c <? 1114112 then
    Some [240 + c / 262144; 128 + (c / 4096) mod 64;
          128 + (c / 64) mod 64; 128 + c mod 64]
  else None.

Fixpoint encode (s : str) : option bytes :=
  match s with
  | [] => Some []
  | c :: s' =>
      b <- encode_char c ;;
      r <- encode s' ;;
      Some (b ++ r)
  end.

(** ** [app/config.py] *)

Module Config.
Record t : Type := mk { WEBHOOK_SECRET : str }.

End Config.

(** ** The regular expression of the phone validator

    [re.match(r'^\+\d+$', v)] on a [str]: [\d] is any Unicode decimal digit
    (general category Nd), and [$] matches at the end of the string and also
    just before a newline that ends the string. *)

Module Re.

(** First code points of the blocks of ten decimal digits of category Nd
    (Unicode 14.0, the table of CPython 3.11). *)
Definition Nd_blocks : list Z :=
  [48; 1632; 1776; 1984; 2406; 2534; 2662; 2790; 2918; 3046; 3174; 3302;
   3430; 3558; 3664; 3792; 3872; 4160; 4240; 6112; 6160; 6470; 6608; 6784;
   6800; 6992; 7088; 7232; 7248; 42528; 43216; 43264; 43472; 43504; 43600;
   44016; 65296; 66720; 68912; 69734; 69872; 69942; 70096; 70384; 70736;
   70864; 71248; 71360; 71472; 71904; 72016; 72784; 73040; 73120; 92768;
   92864; 93008; 123200; 123632; 125264; 130032].

(** [\d] *)
Definition decimal_digit (c : Z) : bool :=
  existsb (fun b => between b c (b + 9)) Nd_blocks || between 120782 c 120831.

(** [\d*$] on the rest of the string. *)
Fixpoint digits_then_end (s : str) : bool :=
  match s with
  | [] => true
  | c :: s' =>
      match s' with
      | [] => decimal_digit c || (c =? 10)
      | _ => decimal_digit c && digits_then_end s'
      end
  end.

(** [re.match(r'^\+\d+$', v)] is not [None]. *)
Definition match_e164 (v : str) : bool :=
  match v with
  | 43 :: c :: s' => decimal_digit c && digits_then_end s'
  | _ => false
  end.

End Re.

(** ** [app/models.py] *)

Module WebhookPayload.
Record t : Type := mk {
  message_id : str;
  from_ : str;
  to : str;
  ts : datetime;
  text : option str
}.
End WebhookPayload.

Module Message.
Record t : Type := mk {
  message_id : str;
  from_ : str;
  to : str;
  ts : datetime;
  text : option str;
  created_at : datetime
}.
End Message.

Module SenderStats.
Record t : Type := mk { from_ : str; count : Z }.
End SenderStats.

Module StatsResponse.
Record t : Type := mk {
  total_messages : Z;
  senders_count : Z;
  messages_per_sender : list SenderStats.t;
  first_message_ts : option datetime;
  last_message_ts : option datetime
}.
End StatsResponse.

(** [WebhookPayload.validate_message_id], run after the [min_length=1] check
    of the field. *)
Definition validate_message_id (v : str) : result string str :=
  if negb (truthy v) || negb (truthy (strip v))
  then Raise "message_id cannot be empty or whitespace only"%string
  else Ok (strip v).

(** [WebhookPayload.validate_e164] *)
Definition validate_e164 (v : str) : result string str :=
  if negb (truthy v) then Raise "Phone number cannot be empty"%string
  else if negb (Re.match_e164 v)
  then Raise "Phone number must be in E.164 format (start with + followed by digits)"%string
  else Ok v.

(** ** SQLite

    What the statements of [app/storage.py] rely on: three-valued logic in
    [WHERE], the [LIKE] operator, [ORDER BY] and [LIMIT]/[OFFSET]. *)

Module Sqlite.

(** [AND] over values that may be NULL ([None]). *)
Definition sql_and (a b : option bool) : option bool :=
  match a, b with
  | Some false, _ | _, Some false => Some false
  | Some true, Some true => Some true
  | _, _ => None
  end.

(** A row is kept by [WHERE] when the condition is true (not false, not NULL). *)
Definition is_true (v : option bool) : bool :=
  match v with Some true => true | _ => false end.

Definition tolower (c : Z) : Z := if between 65 c 90 then c + 32 else c.

(** One pattern character against one text character: [LIKE] ignores the
    case of ASCII letters only. *)
Definition like_char (c x : Z) : bool :=
  (c =? x) || ((c <? 128) && (x <? 128) && (tolower c =? tolower x)).

(** [s LIKE p] on two texts: [%] stands for any run of characters, [_] for
    any one character. *)
Fixpoint like (p s : str) : bool :=
  match p with
  | [] => match s with [] => true | _ => false end
  | c :: p' =>
      if c =? 37 then
        (fix any (s : str) : bool :=
           like p' s || match s with [] => false | _ :: s' => any s' end) s
      else
        match s with
        | [] => false
        | x :: s' => ((c =? 95) || like_char c x) && like p' s'
        end
  end.

(** [text LIKE ?] where the column may be NULL. *)
Definition like_null (p : str) (s : option str) : option bool :=
  match s with
  | Some v => Some (like p v)
  | None => None
  end.

Fixpoint insert_by {A} (leb : A -> A -> bool) (x : A) (l : list A) : list A :=
  match l with
  | [] => [x]
  | y :: l' => if leb x y then x :: l else y :: insert_by leb x l'
  end.

(** [ORDER BY] with the order [leb]. *)
Definition order_by {A} (leb : A -> A -> bool) (l : list A) : list A :=
  fold_right (insert_by leb) [] l.

(** [LIMIT limit OFFSET offset]: a negative limit means no limit, a negative
    offset means none. *)
Definition limit_offset {A} (limit offset : Z) (l : list A) : list A :=
  let rest := skipn (Z.to_nat offset) l in
  if limit <? 0 then rest else firstn (Z.to_nat limit) rest.

(** [MIN] and [MAX] of a text column: NULL on no rows. *)
Definition str_min (a b : str) : str := if str_leb a b then a else b.
Definition str_max (a b : str) : str := if str_leb a b then b else a.

Definition agg (f : str -> str -> str) (l : list str) : option str :=
  match l with
  | [] => None
  | x :: l' => Some (fold_left f l' x)
  end.

End Sqlite.

(** ** [app/storage.py] *)

Module Row.
(** A row of table [messages]; [ts] and [created_at] hold ISO-8601 text. *)
Record t : Type := mk {
  message_id : str;
  from_msisdn : str;
  to_msisdn : str;
  ts : str;
  text : option str;
  created_at : str
}.
End Row.

(** The table [messages], in insertion order. *)
Definition table : Type := list Row.t.

Definition has_key (db : table) (message_id : str) : bool :=
  existsb (fun r => str_eqb (Row.message_id r) message_id) db.

(** [INSERT INTO messages ...] under [message_id TEXT PRIMARY KEY]:
    [IntegrityError] when the key is taken. *)
Definition sql_insert (db : table) (r : Row.t) : result string table :=
  if has_key db (Row.message_id r) then Raise "IntegrityError"%string
  else Ok (db ++ [r]).

(** [MessageStorage.insert_message]; [utcnow] is the reading of
    [datetime.utcnow()] at the call. *)
Definition insert_message (db : table) (utcnow : datetime)
    (message_id from_msisdn to_msisdn : str) (ts : datetime)
    (text : option str) : table * bool :=
  match sql_insert db
          (Row.mk message_id from_msisdn to_msisdn (isoformat ts) text
                  (isoformat utcnow)) with
  | Ok db' => (db', true)
  | Raise _ => (db, false)
  end.

(** The clauses [get_messages] appends to [where_clauses], each one only when
    its argument is truthy. *)
Definition where_clauses (from_msisdn : option str) (since : option datetime)
    (search_query : option str) : list (Row.t -> option bool) :=
  (match from_msisdn with
   | Some f => if truthy f then [fun r => Some (str_eqb (Row.from_msisdn r) f)] else []
   | None => []
   end)
  ++ (match since with
      | Some d => [fun r => Some (str_leb (isoformat d) (Row.ts r))]
      | None => []
      end)
  ++ (match search_query with
      | Some q =>
          if truthy q
          then [fun r => Sqlite.like_null ([37] ++ q ++ [37]) (Row.text r)]
          else []
      | None => []
      end).

(** [" AND ".join(where_clauses)], or [1=1] when there is none. *)
Definition where_sql (clauses : list (Row.t -> option bool)) (r : Row.t)
    : option bool :=
  match clauses with
  | [] => Some true
  | c :: cs => fold_left (fun acc c' => Sqlite.sql_and acc (c' r)) cs (c r)
  end.

Definition matching (db : table) (from_msisdn : option str)
    (since : option datetime) (search_query : option str) : list Row.t :=
  filter (fun r => Sqlite.is_true
                     (where_sql (where_clauses from_msisdn since search_query) r))
         db.

(** [ORDER BY ts ASC, message_id ASC] *)
Definition ts_id_leb (a b : Row.t) : bool :=
  match str_compare (Row.ts a) (Row.ts b) with
  | Lt => true
  | Gt => false
  | Eq => str_leb (Row.message_id a) (Row.message_id b)
  end.

(** The rows of the paginated [SELECT]. *)
Definition select_page (db : table) (limit offset : Z)
    (from_msisdn : option str) (since : option datetime)
    (search_query : option str) : list Row.t :=
  Sqlite.limit_offset limit offset
    (Sqlite.order_by ts_id_leb (matching db from_msisdn since search_query)).

Definition parse_ts (s : str) : result string datetime :=
  match fromisoformat s with
  | Some d => Ok d
  | None => Raise "ValueError"%string
  end.

Definition row_to_message (r : Row.t) : result string Message.t :=
  match parse_ts (Row.ts r), parse_ts (Row.created_at r) with
  | Ok t, Ok c =>
      Ok (Message.mk (Row.message_id r) (Row.from_msisdn r) (Row.to_msisdn r)
                     t (Row.text r) c)
  | Raise e, _ | _, Raise e => Raise e
  end.

Fixpoint traverse {A B} (f : A -> result string B) (l : list A)
    : result string (list B) :=
  match l with
  | [] => Ok []
  | x :: l' =>
      match f x with
      | Ok y =>
          match traverse f l' with
          | Ok ys => Ok (y :: ys)
          | Raise e => Raise e
          end
      | Raise e => Raise e
      end
  end.

(** [MessageStorage.get_messages]: the messages of the page and the total. *)
Definition get_messages (db : table) (limit offset : Z)
    (from_msisdn : option str) (since : option datetime)
    (search_query : option str) : result string (list Message.t * Z) :=
  let total := len (matching db from_msisdn since search_query) in
  match traverse row_to_message
          (select_page db limit offset from_msisdn since search_query) with
  | Ok messages => Ok (messages, total)
  | Raise e => Raise e
  end.

(** [GROUP BY from_msisdn] with [COUNT( * )]: one group per distinct sender. *)
Fixpoint distinct (l : list str) : list str :=
  match l with
  | [] => []
  | x :: l' => if existsb (str_eqb x) l' then distinct l' else x :: distinct l'
  end.

Definition count_from (db : table) (sender : str) : Z :=
  len (filter (fun r => str_eqb (Row.from_msisdn r) sender) db).

Definition group_by_sender (db : table) : list (str * Z) :=
  map (fun s => (s, count_from db s)) (distinct (map Row.from_msisdn db)).

(** [ORDER BY count DESC, from_msisdn ASC] *)
Definition count_from_leb (a b : str * Z) : bool :=
  if snd b <? snd a then true
  else if snd a <? snd b then false
  else str_leb (fst a) (fst b).

Definition top_senders (db : table) : list (str * Z) :=
  Sqlite.limit_offset 10 0 (Sqlite.order_by count_from_leb (group_by_sender db)).

(** [if timestamps[...]: ... = datetime.fromisoformat(timestamps[...])] *)
Definition ts_of_aggregate (v : option str) : result string (option datetime) :=
  match v with
  | Some s =>
      if truthy s then
        match parse_ts s with
        | Ok d => Ok (Some d)
        | Raise e => Raise e
        end
      else Ok None
  | None => Ok None
  end.

(** [MessageStorage.get_stats] *)
Definition get_stats (db : table) : result string StatsResponse.t :=
  let total := len db in
  let senders := len (distinct (map Row.from_msisdn db)) in
  let messages_per_sender :=
    map (fun g => SenderStats.mk (fst g) (snd g)) (top_senders db) in
  match ts_of_aggregate (Sqlite.agg Sqlite.str_min (map Row.ts db)),
        ts_of_aggregate (Sqlite.agg Sqlite.str_max (map Row.ts db)) with
  | Ok first_ts, Ok last_ts =>
      Ok (StatsResponse.mk total senders messages_per_sender first_ts last_ts)
  | Raise e, _ | _, Raise e => Raise e
  end.

(** ** [app/main.py]: signature verification *)

(** [verify_signature(payload, signature)] under the configured secret. *)
Definition verify_signature (cfg : Config.t) (payload : bytes)
    (signature : str) : result string bool :=
  if negb (truthy (Config.WEBHOOK_SECRET cfg)) then Ok false
  else
    match encode (Config.WEBHOOK_SECRET cfg) with
    | None => Raise "UnicodeEncodeError"%string
    | Some key =>
        let expected_signature := Hmac.hexdigest key payload in
        Hmac.compare_digest signature expected_signature
    end.

(** ** Request bodies *)

#[local] Unset Elimination Schemes.
Inductive json : Type :=
| JNull
| JBool (b : bool)
| JNumber (literal : str)
| JString (s : str)
| JArray (items : list json)
| JObject (members : list (str * json)).
#[local] Set Elimination Schemes.

(** [d.get(key)] on a decoded object. *)
Fixpoint lookup (key : str) (members : list (str * json)) : option json :=
  match members with
  | [] => None
  | (k, v) :: rest => if str_eqb k key then Some v else lookup key rest
  end.

(** A validation error: the field it is located at and pydantic's error type. *)
Definition field_error : Type := (string * string)%type.

(** An ISO-8601 text with a trailing [Z] read as UTC: the form of [ts] the
    clients of the service send. *)
Definition iso_datetime (j : json) : option datetime :=
  match j with
  | JString s =>
      match rev s with
      | 90 :: r => fromisoformat (rev r ++ u "+00:00")
      | _ => fromisoformat s
      end
  | _ => None
  end.

(** A request to [POST /webhook] as the framework hands it over: the raw
    body, the body decoded as JSON ([None] when it is not JSON), and the
    [X-Signature] header when present. *)
Module Request.
Record t : Type := mk {
  body : bytes;
  json_body : option json;
  x_signature : option str
}.
End Request.

Module Response.
Record t : Type := mk {
  status_code : Z;
  errors : list field_error;
  logged_result : option string
}.
End Response.

Section Webhook.

(** pydantic's validator of a [datetime] field, from the decoded value. *)
Variable datetime_validator : json -> option datetime.

Definition field_message_id (m : list (str * json)) : result field_error str :=
  match lookup (u "message_id") m with
  | None => Raise ("message_id", "missing")%string
  | Some (JString v) =>
      if len v <? 1 then Raise ("message_id", "string_too_short")%string
      else
        match validate_message_id v with
        | Ok v' => Ok v'
        | Raise _ => Raise ("message_id", "value_error")%string
        end
  | Some _ => Raise ("message_id", "string_type")%string
  end.

Definition field_e164 (name : string) (v : option json) : result field_error str :=
  match v with
  | None => Raise (name, "missing"%string)
  | Some (JString s) =>
      match validate_e164 s with
      | Ok s' => Ok s'
      | Raise _ => Raise (name, "value_error"%string)
      end
  | Some _ => Raise (name, "string_type"%string)
  end.

(** [from_] is looked up under its alias [from], then, as
    [populate_by_name = True] allows, under its own name. *)
Definition field_from (m : list (str * json)) : result field_error str :=
  field_e164 "from"
    (match lookup (u "from") m with
     | Some v => Some v
     | None => lookup (u "from_") m
     end).

Definition field_to (m : list (str * json)) : result field_error str :=
  field_e164 "to" (lookup (u "to") m).

Definition field_ts (m : list (str * json)) : result field_error datetime :=
  match lookup (u "ts") m with
  | None => Raise ("ts", "missing")%string
  | Some v =>
      match datetime_validator v with
      | Some d => Ok d
      | None => Raise ("ts", "datetime_parsing")%string
      end
  end.

Definition field_text (m : list (str * json)) : result field_error (option str) :=
  match lookup (u "text") m with
  | None | Some JNull => Ok None
  | Some (JString v) =>
      if 4096 <? len v then Raise ("text", "string_too_long")%string
      else Ok (Some v)
  | Some _ => Raise ("text", "string_type")%string
  end.

Definition error_of {A} (r : result field_error A) : list field_error :=
  match r with
  | Ok _ => []
  | Raise e => [e]
  end.

(** Validation of a decoded body against [WebhookPayload]: every field is
    checked and all errors are reported. *)
Definition model_validate (j : json) : result (list field_error) WebhookPayload.t :=
  match j with
  | JObject m =>
      match field_message_id m, field_from m, field_to m, field_ts m,
            field_text m with
      | Ok message_id, Ok from_, Ok to, Ok ts, Ok text =>
          Ok (WebhookPayload.mk message_id from_ to ts text)
      | r1, r2, r3, r4, r5 =>
          Raise (error_of r1 ++ error_of r2 ++ error_of r3 ++ error_of r4
                 ++ error_of r5)
      end
  | _ => Raise [("body", "model_attributes_type")%string]
  end.

(** What the framework does before it calls the handler: the parameters
    [payload: WebhookPayload] and [x_signature: str = Header(...)] are
    validated, and any error is answered with 422. *)
Definition request_validation (req : Request.t)
    : result (list field_error) (WebhookPayload.t * str) :=
  let body_result :=
    match Request.json_body req with
    | None => Raise [("body", "json_invalid")%string]
    | Some j => model_validate j
    end in
  match body_result, Request.x_signature req with
  | Ok payload, Some x_signature => Ok (payload, x_signature)
  | Ok _, None => Raise [("X-Signature", "missing")%string]
  | Raise errs, Some _ => Raise errs
  | Raise errs, None => Raise (errs ++ [("X-Signature", "missing")%string])
  end.

(** [webhook_endpoint]: the table after the request and the response. *)
Definition webhook_endpoint (cfg : Config.t) (db : table) (utcnow : datetime)
    (req : Request.t) : table * Response.t :=
  match request_validation req with
  | Raise errs => (db, Response.mk 422 errs None)
  | Ok (payload, x_signature) =>
      match verify_signature cfg (Request.body req) x_signature with
      | Raise _ => (db, Response.mk 500 [] (Some "validation_error"%string))
      | Ok false => (db, Response.mk 401 [] (Some "invalid_signature"%string))
      | Ok true =>
          let '(db', was_inserted) :=
            insert_message db utcnow
              (WebhookPayload.message_id payload)
              (WebhookPayload.from_ payload)
              (WebhookPayload.to payload)
              (WebhookPayload.ts payload)
              (WebhookPayload.text payload) in
          (db', Response.mk 200 []
                  (Some (if was_inserted then "created" else "duplicate")%string))
      end
  end.

End Webhook.

(** ** [app/main.py]: the read endpoints and the health probes *)

(** The database file: reachable, with its table, or not (opening the
    connection or running a statement raises). *)
Inductive medium : Type :=
| Reachable (db : table)
| Unreachable.

(** A storage method run through [_get_connection]. *)
Definition with_connection {A} (m : medium) (k : table -> result string A)
    : result string A :=
  match m with
  | Reachable db => k db
  | Unreachable => Raise "OperationalError"%string
  end.


Module MessageListResponse.
Record t : Type := mk {
  data : list Message.t;
  total : Z;
  limit : Z;
  offset : Z
}.
End MessageListResponse.

Module HealthResponse.
Record t : Type := mk {
  status : string;
  timestamp : datetime;
  database : option string
}.
End HealthResponse.

(** What a handler answers: its model with status 200, an [HTTPException],
    or the framework's validation error (status 422). *)
Inductive http (A : Type) : Type :=
| Http200 (body : A)
| HTTPException (status_code : Z) (detail : string)
| RequestValidationError (errors : list field_error).
Arguments Http200 {A} body.
Arguments HTTPException {A} status_code detail.
Arguments RequestValidationError {A} errors.


Module Main.

(** The query parameters of [GET /messages] after the framework's conversion
    to their declared types; [None] is an absent parameter. *)
Record messages_query : Type := mk_query {
  limit : option Z;
  offset : option Z;
  from_ : option str;
  since : option datetime;
  q : option str
}.

(** [limit: int = Query(default=50, ge=1, le=100)] *)
Definition query_limit (v : option Z) : result field_error Z :=
  match v with
  | None => Ok 50
  | Some n =>
      if n <? 1 then Raise ("limit", "greater_than_equal")%string
      else if 100 <? n then Raise ("limit", "less_than_equal")%string
      else Ok n
  end.

(** [offset: int = Query(default=0, ge=0)] *)
Definition query_offset (v : option Z) : result field_error Z :=
  match v with
  | None => Ok 0
  | Some n =>
      if n <? 0 then Raise ("offset", "greater_than_equal")%string
      else Ok n
  end.

(** [get_messages], the handler of [GET /messages]. *)
Definition get_messages (m : medium) (query : messages_query)
    : http MessageListResponse.t :=
  match query_limit (limit query), query_offset (offset query) with
  | Ok limit, Ok offset =>
      match with_connection m
              (fun db => get_messages db limit offset (from_ query)
                           (since query) (q query)) with
      | Ok (messages, total) =>
          Http200 (MessageListResponse.mk messages total limit offset)
      | Raise _ => HTTPException 500 "Internal server error"
      end
  | r1, r2 => RequestValidationError (error_of r1 ++ error_of r2)
  end.

(** [get_stats], the handler of [GET /stats]. *)
Definition get_stats (m : medium) : http StatsResponse.t :=
  match with_connection m get_stats with
  | Ok stats => Http200 stats
  | Raise _ => HTTPException 500 "Internal server error"
  end.

(** [liveness_check] *)
Definition liveness_check (utcnow : datetime) : http HealthResponse.t :=
  Http200 (HealthResponse.mk "ok" utcnow None).


End Main.

(** ** [app/metrics.py], [app/logging_utils.py] and the middleware

    Durations are readings of the clock; their type and the rounding to two
    decimals are left open. *)

Section Observability.

Variable duration : Type.
Variable round2 : duration -> duration.

(** A labelled counter: the count under each tuple of label values. *)
Definition counter : Type := list string -> Z.

(** [counter.labels(...).inc()] *)
Definition inc (c : counter) (labels : list string) : counter :=
  fun l => if list_eq_dec string_dec l labels then c l + 1 else c l.

(** The three collectors of the module; the histogram keeps what was
    observed under each path, latest first. *)
Record registry : Type := mk_registry {
  http_requests_total : counter;
  webhook_requests_total : counter;
  request_latency_ms : list (string * duration)
}.

(** [str(status)] *)
Definition str_of_int (n : Z) : string := NilZero.string_of_int (Z.to_int n).

(** [MetricsCollector.record_http_request] *)
Definition record_http_request (ENABLE_METRICS : bool) (path : string)
    (status : Z) (duration_ms : duration) (r : registry) : registry :=
  if negb ENABLE_METRICS then r
  else
    mk_registry (inc (http_requests_total r) [path; str_of_int status])
                (webhook_requests_total r)
                ((path, duration_ms) :: request_latency_ms r).

(** [MetricsCollector.record_webhook_request] *)
Definition record_webhook_request (ENABLE_METRICS : bool) (result : string)
    (r : registry) : registry :=
  if negb ENABLE_METRICS then r
  else
    mk_registry (http_requests_total r)
                (inc (webhook_requests_total r) [result])
                (request_latency_ms r).

(** Values of the fields of a structured log record. *)
Inductive log_value : Type :=
| LStr (s : string)
| LText (s : str)
| LInt (n : Z)
| LBool (b : bool)
| LMs (d : duration).

Definition log_dict : Type := list (string * log_value).

(** [d[k] = v] *)
Fixpoint dict_set (k : string) (v : log_value) (d : log_dict) : log_dict :=
  match d with
  | [] => [(k, v)]
  | (k', v') :: d' =>
      if String.eqb k' k then (k, v) :: d' else (k', v') :: dict_set k v d'
  end.

(** [d.update(e)] *)
Definition dict_update (d e : log_dict) : log_dict :=
  fold_left (fun acc kv => dict_set (fst kv) (snd kv) acc) e d.

Fixpoint dict_get (k : string) (d : log_dict) : option log_value :=
  match d with
  | [] => None
  | (k', v) :: d' => if String.eqb k' k then Some v else dict_get k d'
  end.

(** A record handled by a logger: the logger's name and the record's
    [extra_fields]. *)
Record log_record : Type := mk_log_record {
  logger_name : string;
  extra_fields : log_dict
}.

(** The state the requests share: the table, the collectors, the context
    variable [request_id_var] and the records the loggers [app.request] and
    [app.webhook] handled so far, oldest first. *)
Record app_state : Type := mk_app {
  storage : table;
  metrics : registry;
  request_id_var : option str;
  records : list log_record
}.

Definition handle (rec : log_record) (a : app_state) : app_state :=
  mk_app (storage a) (metrics a) (request_id_var a) (records a ++ [rec]).

Definition with_metrics (f : registry -> registry) (a : app_state) : app_state :=
  mk_app (storage a) (f (metrics a)) (request_id_var a) (records a).

(** [log_request] *)
Definition log_request (method path : string) (status_code : Z)
    (latency_ms : duration) (extra : option log_dict) (a : app_state) : app_state :=
  let log_data :=
    [("method", LStr method); ("path", LStr path); ("status", LInt status_code);
     ("latency_ms", LMs (round2 latency_ms))]%string in
  let log_data :=
    match extra with
    | Some e => match e with [] => log_data | _ => dict_update log_data e end
    | None => log_data
    end in
  handle (mk_log_record "app.request" log_data) a.

(** [log_webhook] *)
Definition log_webhook (message_id : str) (dup : bool) (result : string)
    (method path : string) (status_code : Z) (latency_ms : duration)
    (a : app_state) : app_state :=
  let log_data :=
    [("method", LStr method); ("path", LStr path); ("status", LInt status_code);
     ("latency_ms", LMs (round2 latency_ms)); ("message_id", LText message_id);
     ("dup", LBool dup); ("result", LStr result)]%string in
  let log_data :=
    match request_id_var a with
    | Some request_id =>
        if truthy request_id
        then dict_set "request_id" (LText request_id) log_data
        else log_data
    | None => log_data
    end in
  handle (mk_log_record "app.webhook" log_data) a.

Variable datetime_validator : json -> option datetime.

(** [webhook_endpoint] with what it logs and counts; [duration_ms] is the
    time the handler measured when it logs. *)
Definition webhook_endpoint_observed (ENABLE_METRICS : bool) (cfg : Config.t)
    (utcnow : datetime) (duration_ms : duration) (req : Request.t) (a : app_state)
    : app_state * Response.t :=
  match request_validation datetime_validator req with
  | Raise errs => (a, Response.mk 422 errs None)
  | Ok (payload, x_signature) =>
      let message_id := WebhookPayload.message_id payload in
      match verify_signature cfg (Request.body req) x_signature with
      | Raise _ =>
          let result := "validation_error"%string in
          let a := log_webhook message_id false result "POST" "/webhook" 500
                     duration_ms a in
          let a := with_metrics (record_webhook_request ENABLE_METRICS result) a in
          (a, Response.mk 500 [] (Some result))
      | Ok false =>
          let result := "invalid_signature"%string in
          let a := log_webhook message_id false result "POST" "/webhook" 401
                     duration_ms a in
          let a := with_metrics (record_webhook_request ENABLE_METRICS result) a in
          (a, Response.mk 401 [] (Some result))
      | Ok true =>
          let '(db', was_inserted) :=
            insert_message (storage a) utcnow
              (WebhookPayload.message_id payload)
              (WebhookPayload.from_ payload)
              (WebhookPayload.to payload)
              (WebhookPayload.ts payload)
              (WebhookPayload.text payload) in
          let a := mk_app db' (metrics a) (request_id_var a) (records a) in
          let result := (if was_inserted then "created" else "duplicate")%string in
          let dup := negb was_inserted in
          let a := with_metrics (record_webhook_request ENABLE_METRICS result) a in
          let a := log_webhook message_id dup result "POST" "/webhook" 200
                     duration_ms a in
          (a, Response.mk 200 [] (Some result))
      end
  end.

(** [logging_middleware] around a handler [call_next] that answers with a
    status; [request_id] is the fresh UUID and [duration_ms] the time the
    middleware measured.  The answer carries the [X-Request-ID] header. *)
Definition logging_middleware (ENABLE_METRICS : bool) (request_id : str)
    (duration_ms : duration) (method path : string)
    (call_next : app_state -> app_state * Z) (a : app_state)
    : app_state * (Z * str) :=
  let a := mk_app (storage a) (metrics a) (Some request_id) (records a) in
  let '(a, status_code) := call_next a in
  let a :=
    if negb (String.eqb path "/webhook")
    then log_request method path status_code duration_ms
           (Some [("request_id"%string, LText request_id)]) a
    else a in
  let a := with_metrics
             (record_http_request ENABLE_METRICS path status_code duration_ms) a in
  (a, (status_code, request_id)).

(** [POST /webhook] through the middleware. *)
Definition post_webhook (ENABLE_METRICS : bool) (cfg : Config.t)
    (utcnow : datetime) (request_id : str) (handler_ms total_ms : duration)
    (req : Request.t) (a : app_state) : app_state * (Z * str) :=
  logging_middleware ENABLE_METRICS request_id total_ms "POST" "/webhook"
    (fun a =>
       let '(a', response) :=
         webhook_endpoint_observed ENABLE_METRICS cfg utcnow handler_ms req a in
       (a', Response.status_code response))
    a.

End Observability.

(** ** Notions used in the statements *)

Definition same_id (id : str) (r : Row.t) : bool :=
  str_eqb (Row.message_id r) id.

(** The invariant of the primary key: no two rows share a [message_id]. *)
Definition unique_keys (db : table) : Prop := NoDup (map Row.message_id db).

(** A row whose [ts] and [created_at] are ISO-8601 texts [get_messages] can
    turn into a [Message]. *)
Definition row_readable (r : Row.t) : bool :=
  match row_to_message r with
  | Ok _ => true
  | Raise _ => false
  end.

Definition readable (db : table) : bool := forallb row_readable db.

Definition has_text (r : Row.t) : bool :=
  match Row.text r with
  | Some _ => true
  | None => false
  end.

(** A run of [insert_message] calls, each with its clock reading. *)
Definition insert_all (db : table)
    (calls : list (datetime * WebhookPayload.t)) : table :=
  fold_left
    (fun db c =>
       fst (insert_message db (fst c)
              (WebhookPayload.message_id (snd c)) (WebhookPayload.from_ (snd c))
              (WebhookPayload.to (snd c)) (WebhookPayload.ts (snd c))
              (WebhookPayload.text (snd c))))
    calls db.

(** Lexicographic combination of two comparisons. *)
Definition lex (c1 c2 : comparison) : comparison :=
  match c1 with
  | Eq => c2
  | _ => c1
  end.

(** Comparison of the fields, from the year down to the microsecond. *)
Definition fields_compare (a b : datetime) : comparison :=
  lex (year a ?= year b)
    (lex (month a ?= month b)
       (lex (day a ?= day b)
          (lex (hour a ?= hour b)
             (lex (minute a ?= minute b)
                (lex (second a ?= second b)
                   (microsecond a ?= microsecond b)))))).

Definition days_in_year (y : Z) : Z := if is_leap y then 366 else 365.

(** A row whose [ts] was written from a valid datetime of offset [tz]. *)
Definition written_with (tz : option Z) (r : Row.t) : Prop :=
  exists d, valid_datetime d = true /\ tzinfo d = tz /\ Row.ts r = isoformat d.

(** Oldest first, then by [message_id]. *)
Definition oldest_first (a b : Message.t) : Prop :=
  match datetime_compare (Message.ts a) (Message.ts b) with
  | Some Lt => True
  | Some Eq => str_leb (Message.message_id a) (Message.message_id b) = true
  | _ => False
  end.


(** The sum of the counts of a list of sender statistics. *)
Definition sum_counts (l : list SenderStats.t) : Z :=
  fold_right (fun g acc => SenderStats.count g + acc) 0 l.

(** One sender statistic ranks before another: a greater count, or the same
    count and a sender that is not greater. *)
Definition ranks_before (a b : SenderStats.t) : Prop :=
  count_from_leb (SenderStats.from_ a, SenderStats.count a)
                 (SenderStats.from_ b, SenderStats.count b) = true.

(** The order of [ORDER BY ts ASC, message_id ASC] read on the messages
    returned: by the ISO-8601 text of [ts], then by [message_id]. *)
Definition message_key_leb (a b : Message.t) : bool :=
  match str_compare (isoformat (Message.ts a)) (isoformat (Message.ts b)) with
  | Lt => true
  | Gt => false
  | Eq => str_leb (Message.message_id a) (Message.message_id b)
  end.

(** The member names [WebhookPayload] reads. *)
Definition known_member (k : str) : bool :=
  existsb (str_eqb k)
    [u "message_id"; u "from"; u "from_"; u "to"; u "ts"; u "text"].

(** A row whose sender and recipient the phone pattern matches, and whose
    [message_id] is not empty and has no surrounding whitespace. *)
Definition row_valid (r : Row.t) : bool :=
  Re.match_e164 (Row.from_msisdn r) && Re.match_e164 (Row.to_msisdn r)
  && truthy (Row.message_id r)
  && str_eqb (strip (Row.message_id r)) (Row.message_id r).

(** A [POST /webhook] as the server sees it: the request, with what the
    clock and the UUID generator gave while it was served. *)
Record webhook_call (duration : Type) : Type := mk_call {
  call_utcnow : datetime;
  call_request_id : str;
  call_handler_ms : duration;
  call_total_ms : duration;
  call_request : Request.t
}.

Arguments mk_call {duration}.
Arguments call_utcnow {duration}.
Arguments call_request_id {duration}.
Arguments call_handler_ms {duration}.
Arguments call_total_ms {duration}.
Arguments call_request {duration}.

(** The application after it served the calls one after the other. *)
Definition post_webhooks {duration : Type} (round2 : duration -> duration)
    (datetime_validator : json -> option datetime) (ENABLE_METRICS : bool)
    (cfg : Config.t) (calls : list (webhook_call duration))
    (a : app_state duration) : app_state duration :=
  fold_left
    (fun a c =>
       fst (post_webhook duration round2 datetime_validator ENABLE_METRICS cfg
              (call_utcnow c) (call_request_id c) (call_handler_ms c)
              (call_total_ms c) (call_request c) a))
    calls a.

(** The requests counted on [/webhook] under the statuses 200, 401, 422
    and 500. *)
Definition http_webhook_total {duration : Type} (r : registry duration) : Z :=
  http_requests_total duration r ["/webhook"; "200"]%string
  + http_requests_total duration r ["/webhook"; "401"]%string
  + http_requests_total duration r ["/webhook"; "422"]%string
  + http_requests_total duration r ["/webhook"; "500"]%string.

(** The webhooks counted under the four results. *)
Definition webhook_results_total {duration : Type} (r : registry duration) : Z :=
  webhook_requests_total duration r ["created"]%string
  + webhook_requests_total duration r ["duplicate"]%string
  + webhook_requests_total duration r ["invalid_signature"]%string
  + webhook_requests_total duration r ["validation_error"]%string.

(** ** Sample data *)

Module Sample.

(** A JSON body written with apostrophes in place of double quotes. *)
Definition json_text (s : string) : bytes :=
  map (fun c => if c =? 39 then 34 else c) (u s).

Definition cfg : Config.t := Config.mk (u "testsecret").

Definition sender : str := u "+919876543210".
Definition recipient : str := u "+14155550100".

(** 10:00 UTC, and 09:00 at UTC-05:00, which is 14:00 UTC. *)
Definition ts_utc : datetime := mkDatetime 2025 1 15 10 0 0 0 (Some 0).
Definition ts_minus5 : datetime := mkDatetime 2025 1 15 9 0 0 0 (Some (-18000)).

Definition now1 : datetime := mkDatetime 2025 1 15 15 0 0 0 None.
Definition now2 : datetime := mkDatetime 2025 1 15 15 0 1 250000 None.

(** Two messages whose timestamps carry different UTC offsets. *)
Definition db_mixed : table :=
  fst (insert_message
         (fst (insert_message [] now1 (u "m1") sender recipient ts_utc
                 (Some (u "first"))))
         now2 (u "m2") sender recipient ts_minus5 None).

Definition body_ok : bytes :=
  json_text "{'message_id':'m1','from':'+919876543210','to':'+14155550100','ts':'2025-01-15T10:00:00Z','text':'Hello'}".

Definition json_ok : json :=
  JObject [(u "message_id", JString (u "m1"));
           (u "from", JString sender);
           (u "to", JString recipient);
           (u "ts", JString (u "2025-01-15T10:00:00Z"));
           (u "text", JString (u "Hello"))].



(** The sender ends with a newline (the JSON text holds the escape). *)
Definition json_newline : json :=
  JObject [(u "message_id", JString (u "m1"));
           (u "from", JString (u "+123" ++ [10]));
           (u "to", JString recipient);
           (u "ts", JString (u "2025-01-15T10:00:00Z"))].

(** Two messages whose timestamps are both in UTC. *)
Definition ts_utc_later : datetime := mkDatetime 2025 1 15 11 30 0 0 (Some 0).

Definition db_utc : table :=
  fst (insert_message
         (fst (insert_message [] now1 (u "m1") sender recipient ts_utc_later
                 (Some (u "first"))))
         now2 (u "m2") sender recipient ts_utc None).

End Sample.

(** * Properties *)

(** ** Strings *)

Lemma str_eqb_eq (a b : str) : str_eqb a b = true <-> a = b.
Proof.
  revert b; induction a as [|x a IH]; intros [|y b]; simpl;
    try (split; [discriminate | congruence]); try tauto.
  rewrite andb_true_iff, Z.eqb_eq, IH.
  split; [intros [-> ->]; reflexivity | intros H; injection H; auto].
Qed.

Lemma str_eqb_refl (a : str) : str_eqb a a = true.
Proof. apply str_eqb_eq; reflexivity. Qed.

Lemma str_eqb_neq (a b : str) : str_eqb a b = false <-> a <> b.
Proof.
  rewrite <- str_eqb_eq. destruct (str_eqb a b); split; congruence.
Qed.

Lemma str_eqb_sym (a b : str) : str_eqb a b = str_eqb b a.
Proof.
  destruct (str_eqb a b) eqn:E.
  - apply str_eqb_eq in E; subst; symmetry; apply str_eqb_refl.
  - symmetry; apply str_eqb_neq; apply str_eqb_neq in E; congruence.
Qed.

Lemma str_compare_eq (a b : str) : str_compare a b = Eq <-> a = b.
Proof.
  revert b; induction a as [|x a IH]; intros [|y b]; simpl;
    try (split; [discriminate | congruence]); try tauto.
  destruct (Z.compare_spec x y) as [->|H|H].
  - rewrite IH; split; [intros ->; reflexivity | intros H; injection H; auto].
  - split; [discriminate | intros E; injection E; lia].
  - split; [discriminate | intros E; injection E; lia].
Qed.

Lemma str_compare_refl (a : str) : str_compare a a = Eq.
Proof. apply str_compare_eq; reflexivity. Qed.

Lemma str_compare_antisym (a b : str) :
  str_compare b a = CompOpp (str_compare a b).
Proof.
  revert b; induction a as [|x a IH]; intros [|y b]; simpl; try reflexivity.
  rewrite (Z.compare_antisym x y).
  destruct (x ?= y); simpl; auto.
Qed.

Lemma str_compare_lt_trans (a b c : str) :
  str_compare a b = Lt -> str_compare b c = Lt -> str_compare a c = Lt.
Proof.
  revert b c; induction a as [|x a IH]; intros [|y b] [|z c]; simpl;
    try discriminate; auto.
  destruct (Z.compare_spec x y) as [->|Hxy|Hxy]; try discriminate.
  - destruct (Z.compare_spec y z) as [->|Hyz|Hyz]; try discriminate; eauto.
  - intros _.
    destruct (Z.compare_spec y z) as [->|Hyz|Hyz]; try discriminate; intros _.
    + destruct (Z.compare_spec x z); auto; lia.
    + destruct (Z.compare_spec x z); auto; lia.
Qed.

Lemma str_leb_refl (a : str) : str_leb a a = true.
Proof. unfold str_leb; rewrite str_compare_refl; reflexivity. Qed.

Lemma str_leb_total (a b : str) : str_leb a b = true \/ str_leb b a = true.
Proof.
  unfold str_leb; rewrite (str_compare_antisym a b).
  destruct (str_compare a b); simpl; auto.
Qed.

Lemma str_leb_trans (a b c : str) :
  str_leb a b = true -> str_leb b c = true -> str_leb a c = true.
Proof.
  unfold str_leb.
  destruct (str_compare a b) eqn:Eab; try discriminate; intros _;
    destruct (str_compare b c) eqn:Ebc; try discriminate; intros _.
  - apply str_compare_eq in Eab, Ebc; subst; rewrite str_compare_refl; auto.
  - apply str_compare_eq in Eab; subst; rewrite Ebc; auto.
  - apply str_compare_eq in Ebc; subst; rewrite Eab; auto.
  - rewrite (str_compare_lt_trans _ _ _ Eab Ebc); auto.
Qed.

Lemma str_leb_antisym (a b : str) :
  str_leb a b = true -> str_leb b a = true -> a = b.
Proof.
  unfold str_leb; rewrite (str_compare_antisym a b).
  destruct (str_compare a b) eqn:E; simpl; try discriminate.
  intros _ _; apply str_compare_eq; assumption.
Qed.

(** ** Sorting *)

Section OrderBy.

Context {A : Type} (leb : A -> A -> bool).
Hypothesis leb_total : forall a b, leb a b = true \/ leb b a = true.
Hypothesis leb_trans :
  forall a b c, leb a b = true -> leb b c = true -> leb a c = true.

Let le (a b : A) : Prop := leb a b = true.

Lemma insert_by_perm (x : A) (l : list A) :
  Permutation (x :: l) (Sqlite.insert_by leb x l).
Proof.
  induction l as [|y l IH]; simpl; auto.
  destruct (leb x y); auto.
  rewrite perm_swap; auto.
Qed.

Lemma order_by_perm (l : list A) : Permutation l (Sqlite.order_by leb l).
Proof.
  induction l as [|x l IH]; simpl; auto.
  rewrite <- insert_by_perm; auto.
Qed.

Lemma order_by_In (l : list A) (x : A) :
  In x (Sqlite.order_by leb l) <-> In x l.
Proof.
  split; apply Permutation_in;
    [symmetry |]; apply order_by_perm.
Qed.

Lemma order_by_length (l : list A) :
  List.length (Sqlite.order_by leb l) = List.length l.
Proof. symmetry; apply Permutation_length, order_by_perm. Qed.

Lemma insert_by_sorted (x : A) (l : list A) :
  StronglySorted le l -> StronglySorted le (Sqlite.insert_by leb x l).
Proof.
  induction 1 as [|y l Hs IH Hall]; simpl.
  - repeat constructor.
  - destruct (leb x y) eqn:E.
    + constructor; [constructor; assumption|].
      constructor; [exact E|].
      eapply Forall_impl; [|exact Hall].
      intros z Hz; eapply leb_trans; eauto.
    + constructor; [assumption|].
      assert (Hyx : le y x) by (destruct (leb_total x y); congruence).
      eapply Permutation_Forall; [apply insert_by_perm|].
      constructor; assumption.
Qed.

Lemma order_by_sorted (l : list A) : StronglySorted le (Sqlite.order_by leb l).
Proof.
  induction l as [|x l IH]; simpl; [constructor | apply insert_by_sorted, IH].
Qed.

End OrderBy.

(** ** Idempotent insertion *)

Lemma has_key_In (db : table) (id : str) :
  has_key db id = true <-> In id (map Row.message_id db).
Proof.
  unfold has_key; rewrite existsb_exists, in_map_iff.
  split; intros (r & H1 & H2); exists r.
  - apply str_eqb_eq in H2; auto.
  - split; [assumption | apply str_eqb_eq; assumption].
Qed.

Lemma has_key_false_filter (db : table) (id : str) :
  has_key db id = false -> filter (same_id id) db = [].
Proof.
  unfold has_key, same_id; induction db as [|r db IH]; simpl; auto.
  destruct (str_eqb (Row.message_id r) id); simpl; [discriminate | exact IH].
Qed.

Lemma insert_message_created (db : table) (now : datetime)
    (id f t : str) (ts : datetime) (x : option str) :
  has_key db id = false ->
  insert_message db now id f t ts x
  = (db ++ [Row.mk id f t (isoformat ts) x (isoformat now)], true).
Proof.
  intros H; unfold insert_message, sql_insert; simpl; rewrite H; reflexivity.
Qed.

Lemma insert_message_duplicate (db : table) (now : datetime)
    (id f t : str) (ts : datetime) (x : option str) :
  has_key db id = true -> insert_message db now id f t ts x = (db, false).
Proof.
  intros H; unfold insert_message, sql_insert; simpl; rewrite H; reflexivity.
Qed.

Lemma unique_keys_nil : unique_keys [].
Proof. constructor. Qed.

Lemma unique_keys_insert_message (db : table) (now : datetime)
    (id f t : str) (ts : datetime) (x : option str) :
  unique_keys db -> unique_keys (fst (insert_message db now id f t ts x)).
Proof.
  intros U. destruct (has_key db id) eqn:E.
  - rewrite insert_message_duplicate by assumption; exact U.
  - rewrite insert_message_created by assumption; simpl.
    unfold unique_keys in *; rewrite map_app; simpl.
    apply NoDup_rev in U. rewrite <- (rev_involutive (_ ++ _)).
    apply NoDup_rev. rewrite rev_app_distr; simpl.
    constructor; [|exact U].
    rewrite <- in_rev, <- has_key_In; congruence.
Qed.

Lemma unique_keys_filter (db : table) (r : Row.t) :
  unique_keys db -> In r db -> filter (same_id (Row.message_id r)) db = [r].
Proof.
  unfold unique_keys, same_id; induction db as [|r0 db IH]; simpl; [tauto|].
  intros U [->|Hin]; inversion U as [|? ? Hnot U']; subst.
  - rewrite str_eqb_refl; f_equal.
    apply has_key_false_filter.
    destruct (has_key db (Row.message_id r)) eqn:E; auto.
    apply has_key_In in E; contradiction.
  - destruct (str_eqb (Row.message_id r0) (Row.message_id r)) eqn:E.
    + apply str_eqb_eq in E; exfalso; apply Hnot; rewrite E.
      apply in_map; assumption.
    + apply IH; assumption.
Qed.

(** Rows already stored stay in the table, whatever is inserted later. *)
Lemma insert_message_keeps (db : table) (now : datetime)
    (id f t : str) (ts : datetime) (x : option str) (r : Row.t) :
  In r db -> In r (fst (insert_message db now id f t ts x)).
Proof.
  intros H; destruct (has_key db id) eqn:E.
  - rewrite insert_message_duplicate by assumption; exact H.
  - rewrite insert_message_created by assumption; simpl.
    apply in_or_app; auto.
Qed.

(** C1: once a message is stored under a [message_id], a second
    [insert_message] with that id and any other fields changes nothing and
    reports a duplicate; the table holds exactly one row for the id, the one
    the first call wrote, with its [ts], [text] and [created_at]. *)
Theorem insert_message_idempotent
    (db : table) (now1 now2 : datetime) (id f1 t1 f2 t2 : str)
    (ts1 ts2 : datetime) (x1 x2 : option str) :
  has_key db id = false ->
  let first := insert_message db now1 id f1 t1 ts1 x1 in
  snd first = true
  /\ insert_message (fst first) now2 id f2 t2 ts2 x2 = (fst first, false)
  /\ filter (same_id id) (fst first)
     = [Row.mk id f1 t1 (isoformat ts1) x1 (isoformat now1)].
Proof.
  intros H first; subst first.
  rewrite insert_message_created by assumption; simpl.
  split; [reflexivity|]. split.
  - apply insert_message_duplicate, has_key_In.
    rewrite map_app; apply in_or_app; right; simpl; auto.
  - rewrite filter_app, has_key_false_filter by assumption; simpl.
    unfold same_id; simpl; rewrite str_eqb_refl; reflexivity.
Qed.

(** ** Reading back what [isoformat] wrote *)

Lemma take_num_pad (n : nat) (acc v : Z) (rest : str) :
  take_num n acc (pad n v ++ rest)
  = Some (acc * 10 ^ Z.of_nat n + v mod 10 ^ Z.of_nat n, rest).
Proof.
  revert acc; induction n as [|n IH]; intros acc.
  - simpl. rewrite Z.mod_1_r. do 2 f_equal. lia.
  - cbn [pad app take_num].
    assert (Hd : 0 <= (v / 10 ^ Z.of_nat n) mod 10 < 10)
      by (apply Z.mod_pos_bound; lia).
    replace (is_digit (48 + (v / 10 ^ Z.of_nat n) mod 10)) with true
      by (unfold is_digit, between; lia).
    rewrite IH. do 2 f_equal.
    assert (Hp : 0 < 10 ^ Z.of_nat n) by (apply Z.pow_pos_nonneg; lia).
    rewrite Nat2Z.inj_succ, Z.pow_succ_r by lia.
    rewrite (Z.mul_comm 10 (10 ^ Z.of_nat n)), Z.rem_mul_r by lia.
    ring.
Qed.

Lemma take_num_pad_small (n : nat) (v : Z) (rest : str) :
  0 <= v < 10 ^ Z.of_nat n ->
  take_num n 0 (pad n v ++ rest) = Some (v, rest).
Proof.
  intros H; rewrite take_num_pad, Z.mod_small by assumption.
  do 2 f_equal; lia.
Qed.

Lemma parse_offset_format (tz : option Z) :
  match tz with Some off => -86400 < off < 86400 | None => True end ->
  parse_offset (format_offset tz) = Some tz.
Proof.
  destruct tz as [off|]; [|reflexivity]; intros H.
  unfold format_offset, parse_offset.
  set (a := Z.abs off).
  assert (Ha : 0 <= a < 86400) by (unfold a; lia).
  assert (Hh : 0 <= a / 3600 < 10 ^ Z.of_nat 2).
  { split; [apply Z.div_pos; lia | apply Z.div_lt_upper_bound; simpl; lia]. }
  assert (Hm : 0 <= a mod 3600 / 60 < 60).
  { pose proof (Z.mod_pos_bound a 3600 ltac:(lia)).
    split; [apply Z.div_pos; lia | apply Z.div_lt_upper_bound; lia]. }
  assert (Hs : 0 <= a mod 60 < 60) by (apply Z.mod_pos_bound; lia).
  assert (Hsum : a / 3600 * 3600 + a mod 3600 / 60 * 60 + a mod 60 = a).
  { pose proof (Z.div_mod a 3600 ltac:(lia)).
    pose proof (Z.div_mod (a mod 3600) 60 ltac:(lia)).
    assert (a mod 60 = (a mod 3600) mod 60)
      by (Z.to_euclidean_division_equations; lia).
    lia. }
  assert (Hsign : ((if off <? 0 then 45 else 43) =? 43)
                  || ((if off <? 0 then 45 else 43) =? 45) = true)
    by (destruct (off <? 0); reflexivity).
  rewrite Hsign.
  rewrite take_num_pad_small by assumption. cbn [obind app expect].
  rewrite Z.eqb_refl. cbn [obind].
  assert (Hfin : forall ss : Z, ss = a mod 60 ->
     (if (a mod 3600 / 60 <=? 59) && (ss <=? 59)
      then Some (Some (if (if off <? 0 then 45 else 43) =? 45
                       then - (a / 3600 * 3600 + a mod 3600 / 60 * 60 + ss)
                       else a / 3600 * 3600 + a mod 3600 / 60 * 60 + ss))
      else None) = Some (Some off)).
  { intros ss ->. rewrite Hsum.
    replace (a mod 3600 / 60 <=? 59) with true by lia.
    replace (a mod 60 <=? 59) with true by lia. simpl.
    unfold a; destruct (Z.ltb_spec off 0); simpl; do 2 f_equal; lia. }
  destruct (Z.eqb_spec (a mod 60) 0) as [E|E]; cbv iota.
  - rewrite take_num_pad_small by (simpl; lia). cbn [obind].
    apply Hfin; lia.
  - rewrite take_num_pad_small by (simpl; lia). cbn [obind expect].
    rewrite Z.eqb_refl. cbn [obind].
    rewrite <- (app_nil_r (pad 2 (a mod 60))).
    rewrite take_num_pad_small by (simpl; lia). cbn [obind].
    apply Hfin; reflexivity.
Qed.

Lemma valid_datetime_bounds (d : datetime) :
  valid_datetime d = true ->
  1 <= year d <= 9999 /\ 1 <= month d <= 12 /\ 1 <= day d <= 31
  /\ 0 <= hour d <= 23 /\ 0 <= minute d <= 59 /\ 0 <= second d <= 59
  /\ 0 <= microsecond d <= 999999
  /\ match tzinfo d with Some off => -86400 < off < 86400 | None => True end.
Proof.
  unfold valid_datetime, between, days_in_month.
  rewrite !andb_true_iff.
  intros H; decompose [and] H; clear H.
  assert (day d <= 31).
  { destruct (month d =? 2); [destruct (is_leap (year d)); lia|].
    destruct ((month d =? 4) || (month d =? 6) || (month d =? 9)
              || (month d =? 11)); lia. }
  destruct (tzinfo d); repeat split; lia.
Qed.

Lemma format_offset_no_fraction (tz : option Z) :
  match format_offset tz with
  | 46 :: s' => take_num 6 0 s'
  | _ => Some (0, format_offset tz)
  end = Some (0, format_offset tz).
Proof.
  destruct tz as [off|]; [|reflexivity].
  unfold format_offset; destruct (off <? 0); reflexivity.
Qed.

(** [datetime.fromisoformat(d.isoformat())] gives [d] back. *)
Lemma fromisoformat_isoformat (d : datetime) :
  valid_datetime d = true -> fromisoformat (isoformat d) = Some d.
Proof.
  intros V. pose proof (valid_datetime_bounds d V) as B.
  decompose [and] B; clear B.
  unfold isoformat, fromisoformat.
  do 5 (rewrite take_num_pad_small by (simpl; lia); cbn [obind app expect];
        rewrite Z.eqb_refl; cbn [obind]).
  rewrite take_num_pad_small by (simpl; lia). cbn [obind].
  assert (Hend : forall us, us = microsecond d ->
    (tz <- parse_offset (format_offset (tzinfo d)) ;;
     (let r := mkDatetime (year d) (month d) (day d) (hour d) (minute d)
                          (second d) us tz in
      if valid_datetime r then Some r else None)) = Some d).
  { intros us ->. rewrite parse_offset_format by assumption. cbn [obind].
    destruct d; simpl in *. rewrite V. reflexivity. }
  destruct (Z.eqb_spec (microsecond d) 0) as [E|E]; cbn [app].
  - rewrite format_offset_no_fraction. cbn [obind].
    apply Hend; lia.
  - rewrite take_num_pad_small by (simpl; lia). cbn [obind].
    apply Hend; reflexivity.
Qed.

(** ** Rows that can be read back *)

Lemma readable_insert_message (db : table) (now : datetime)
    (id f t : str) (ts : datetime) (x : option str) :
  valid_datetime ts = true -> valid_datetime now = true ->
  readable db = true ->
  readable (fst (insert_message db now id f t ts x)) = true.
Proof.
  intros Vt Vn R. destruct (has_key db id) eqn:E.
  - rewrite insert_message_duplicate by assumption; exact R.
  - rewrite insert_message_created by assumption; simpl.
    unfold readable in *; rewrite forallb_app, R; simpl.
    unfold row_readable, row_to_message, parse_ts; simpl.
    rewrite !fromisoformat_isoformat by assumption; reflexivity.
Qed.

Lemma traverse_ok {A B} (f : A -> result string B) (l : list A) :
  (forall x, In x l -> exists y, f x = Ok y) ->
  exists ys, traverse f l = Ok ys.
Proof.
  induction l as [|x l IH]; simpl; intros H; [eauto|].
  destruct (H x) as [y ->]; auto.
  destruct IH as [ys ->]; eauto.
Qed.

Lemma traverse_Forall2 {A B} (f : A -> result string B) (l : list A)
    (ys : list B) :
  traverse f l = Ok ys -> Forall2 (fun x y => f x = Ok y) l ys.
Proof.
  revert ys; induction l as [|x l IH]; simpl; intros ys H.
  - injection H as <-; constructor.
  - destruct (f x) as [y|] eqn:E; [|discriminate].
    destruct (traverse f l) as [ys'|]; [|discriminate].
    injection H as <-; constructor; auto.
Qed.

Lemma limit_offset_incl {A} (limit offset : Z) (l : list A) (x : A) :
  In x (Sqlite.limit_offset limit offset l) -> In x l.
Proof.
  unfold Sqlite.limit_offset; intros H.
  assert (In x (skipn (Z.to_nat offset) l)) as H'.
  { destruct (limit <? 0); [exact H|].
    rewrite <- (firstn_skipn (Z.to_nat limit)); apply in_or_app; auto. }
  rewrite <- (firstn_skipn (Z.to_nat offset) l); apply in_or_app; auto.
Qed.

Lemma select_page_incl (db : table) (limit offset : Z) (f : option str)
    (s : option datetime) (q : option str) (r : Row.t) :
  In r (select_page db limit offset f s q) -> In r (matching db f s q).
Proof.
  unfold select_page; intros H.
  apply limit_offset_incl in H.
  eapply Permutation_in; [symmetry; apply order_by_perm | exact H].
Qed.

Lemma matching_incl (db : table) (f : option str) (s : option datetime)
    (q : option str) (r : Row.t) :
  In r (matching db f s q) -> In r db.
Proof. unfold matching; rewrite filter_In; tauto. Qed.

Lemma limit_offset_length {A} (limit offset : Z) (l : list A) :
  0 <= limit -> 0 <= offset ->
  len (Sqlite.limit_offset limit offset l) = Z.min limit (Z.max 0 (len l - offset)).
Proof.
  intros Hl Ho; unfold Sqlite.limit_offset, len.
  replace (limit <? 0) with false by lia.
  rewrite length_firstn, length_skipn; lia.
Qed.



(** C9: an empty sender filter, or an empty text-search filter, is the same
    as no filter: [get_messages] gives the same records and total. *)
Theorem get_messages_empty_filter (db : table) (limit offset : Z)
    (f : option str) (s : option datetime) (q : option str) :
  get_messages db limit offset (Some []) s q
  = get_messages db limit offset None s q
  /\ get_messages db limit offset f s (Some [])
     = get_messages db limit offset f s None.
Proof. split; reflexivity. Qed.

(** ** The [WHERE] clause *)

Lemma is_true_sql_and (a b : option bool) :
  Sqlite.is_true (Sqlite.sql_and a b) = Sqlite.is_true a && Sqlite.is_true b.
Proof. destruct a as [[]|], b as [[]|]; reflexivity. Qed.

(** A row passes [WHERE c1 AND ... AND cn] exactly when every clause is true
    on it; a clause that is NULL rejects the row. *)
Lemma is_true_where_sql (cs : list (Row.t -> option bool)) (r : Row.t) :
  Sqlite.is_true (where_sql cs r)
  = forallb (fun c => Sqlite.is_true (c r)) cs.
Proof.
  destruct cs as [|c cs]; [reflexivity|]; simpl.
  generalize (c r); induction cs as [|c' cs IH]; intros acc; simpl.
  - rewrite andb_true_r; reflexivity.
  - rewrite IH, is_true_sql_and, andb_assoc; reflexivity.
Qed.

Lemma matching_has_text (db : table) (f : option str) (s : option datetime)
    (q : str) (r : Row.t) :
  q <> [] -> In r (matching db f s (Some q)) -> has_text r = true.
Proof.
  intros Hq; unfold matching; rewrite filter_In, is_true_where_sql.
  intros [_ H]. unfold where_clauses in H.
  destruct q as [|c q]; [congruence|]. cbn [truthy] in H.
  rewrite !forallb_app in H. apply andb_true_iff in H as [_ H].
  apply andb_true_iff in H as [_ H]. simpl in H.
  unfold has_text; destruct (Row.text r); [reflexivity | discriminate].
Qed.

Lemma filter_filter_implied {A} (p h : A -> bool) (l : list A) :
  (forall x, In x l -> p x = true -> h x = true) ->
  filter p (filter h l) = filter p l.
Proof.
  induction l as [|x l IH]; simpl; intros H; [reflexivity|].
  destruct (h x) eqn:Eh; simpl.
  - rewrite IH by auto; reflexivity.
  - destruct (p x) eqn:Ep; [rewrite H in Eh; auto; discriminate | auto].
Qed.

Lemma matching_filter_has_text (db : table) (f : option str)
    (s : option datetime) (q : str) :
  q <> [] ->
  matching (filter has_text db) f s (Some q) = matching db f s (Some q).
Proof.
  intros Hq; unfold matching; apply filter_filter_implied.
  intros r Hin Hp. apply (matching_has_text db f s q r Hq).
  unfold matching; rewrite filter_In; auto.
Qed.

Lemma Forall2_In_r {A B} (R : A -> B -> Prop) (l : list A) (l' : list B)
    (y : B) :
  Forall2 R l l' -> In y l' -> exists x, In x l /\ R x y.
Proof.
  induction 1 as [|x y' l l' Hxy _ IH]; simpl; [tauto|].
  intros [->|Hin]; [eauto|].
  destruct (IH Hin) as (x' & ? & ?); eauto.
Qed.

(** C10: with a non-empty text-search query, a row whose [text] is NULL never
    matches: no such row is among the matching rows, and the records and the
    total [get_messages] returns are those of the table without these rows. *)
Theorem search_excludes_null_text (db : table) (limit offset : Z)
    (f : option str) (s : option datetime) (q : str) :
  q <> [] ->
  Forall (fun r => Row.text r <> None) (matching db f s (Some q))
  /\ get_messages db limit offset f s (Some q)
     = get_messages (filter has_text db) limit offset f s (Some q)
  /\ forall messages total,
       get_messages db limit offset f s (Some q) = Ok (messages, total) ->
       Forall (fun m => Message.text m <> None) messages.
Proof.
  intros Hq.
  assert (Hrows : Forall (fun r => Row.text r <> None) (matching db f s (Some q))).
  { apply Forall_forall; intros r Hr.
    apply (matching_has_text db f s q r Hq) in Hr.
    unfold has_text in Hr; destruct (Row.text r); congruence. }
  split; [exact Hrows|]. split.
  - unfold get_messages, select_page.
    rewrite matching_filter_has_text by assumption; reflexivity.
  - intros messages total H. unfold get_messages in H.
    destruct (traverse row_to_message _) as [ms|] eqn:E; [|discriminate].
    injection H as <- _.
    apply traverse_Forall2 in E.
    apply Forall_forall; intros m Hm.
    destruct (Forall2_In_r _ _ _ m E Hm) as (r & Hr & Hrm).
    apply select_page_incl in Hr.
    rewrite Forall_forall in Hrows; specialize (Hrows r Hr).
    unfold row_to_message in Hrm.
    destruct (parse_ts (Row.ts r)), (parse_ts (Row.created_at r));
      try discriminate.
    injection Hrm as <-; exact Hrows.
Qed.

(** ** Ordering of the page *)

Lemma ts_id_leb_total (a b : Row.t) :
  ts_id_leb a b = true \/ ts_id_leb b a = true.
Proof.
  unfold ts_id_leb. rewrite (str_compare_antisym (Row.ts a) (Row.ts b)).
  destruct (str_compare (Row.ts a) (Row.ts b)); simpl; auto.
  apply str_leb_total.
Qed.

Lemma ts_id_leb_trans (a b c : Row.t) :
  ts_id_leb a b = true -> ts_id_leb b c = true -> ts_id_leb a c = true.
Proof.
  unfold ts_id_leb.
  destruct (str_compare (Row.ts a) (Row.ts b)) eqn:Eab; try discriminate;
    destruct (str_compare (Row.ts b) (Row.ts c)) eqn:Ebc; try discriminate;
    intros H1 H2.
  - apply str_compare_eq in Eab, Ebc. rewrite Eab, Ebc, str_compare_refl.
    eapply str_leb_trans; eauto.
  - apply str_compare_eq in Eab. rewrite Eab, Ebc; reflexivity.
  - apply str_compare_eq in Ebc. rewrite <- Ebc, Eab; reflexivity.
  - rewrite (str_compare_lt_trans _ _ _ Eab Ebc); reflexivity.
Qed.

Lemma StronglySorted_skipn {A} (R : A -> A -> Prop) (n : nat) (l : list A) :
  StronglySorted R l -> StronglySorted R (skipn n l).
Proof.
  revert l; induction n as [|n IH]; intros l H; [exact H|].
  destruct l as [|x l]; [constructor|].
  simpl; apply IH; inversion H; assumption.
Qed.

Lemma StronglySorted_firstn {A} (R : A -> A -> Prop) (n : nat) (l : list A) :
  StronglySorted R l -> StronglySorted R (firstn n l).
Proof.
  revert l; induction n as [|n IH]; intros l H; [constructor|].
  destruct l as [|x l]; [constructor|].
  inversion H as [|? ? Hs Hall]; subst; simpl; constructor; [auto|].
  rewrite Forall_forall in *; intros y Hy; apply Hall.
  rewrite <- (firstn_skipn n l); apply in_or_app; auto.
Qed.

(** The rows of a page come in the order of [ORDER BY ts ASC, message_id ASC]:
    by the stored ISO-8601 text of [ts], then by [message_id]. *)
Lemma select_page_sorted (db : table) (limit offset : Z) (f : option str)
    (s : option datetime) (q : option str) :
  StronglySorted (fun a b => ts_id_leb a b = true)
                 (select_page db limit offset f s q).
Proof.
  unfold select_page, Sqlite.limit_offset.
  pose proof (order_by_sorted ts_id_leb ts_id_leb_total ts_id_leb_trans
                (matching db f s q)) as H.
  apply (StronglySorted_skipn _ (Z.to_nat offset)) in H.
  destruct (limit <? 0); [exact H | apply StronglySorted_firstn; exact H].
Qed.

(** ** Signature verification *)

Lemma hex_digit_ascii (n : Z) :
  0 <= n < 16 -> (0 <=? Hashlib.hex_digit n) && (Hashlib.hex_digit n <? 128) = true.
Proof. intros H; unfold Hashlib.hex_digit; destruct (n <? 10); lia. Qed.

Lemma hex_is_ascii (b : bytes) : is_ascii (Hashlib.hex b) = true.
Proof.
  unfold is_ascii, Hashlib.hex; induction b as [|x b IH]; [reflexivity|].
  cbn [flat_map app forallb].
  rewrite !hex_digit_ascii by (apply Z.mod_pos_bound; lia).
  exact IH.
Qed.

Lemma hexdigest_is_ascii (key msg : bytes) :
  is_ascii (Hmac.hexdigest key msg) = true.
Proof. unfold Hmac.hexdigest; apply hex_is_ascii. Qed.

Lemma compare_digest_true (a b : str) :
  is_ascii b = true -> (Hmac.compare_digest a b = Ok true <-> a = b).
Proof.
  intros Hb; unfold Hmac.compare_digest; split.
  - destruct (is_ascii a && is_ascii b); [|discriminate].
    intros H; injection H as H; apply str_eqb_eq; exact H.
  - intros ->; rewrite Hb, str_eqb_refl; reflexivity.
Qed.

Lemma truthy_nonempty (s : str) : truthy s = true <-> s <> [].
Proof. destruct s; simpl; split; congruence. Qed.

(** [verify_signature] answers [True] only for the HMAC of the body. *)
Lemma verify_signature_true (cfg : Config.t) (payload : bytes)
    (signature : str) :
  verify_signature cfg payload signature = Ok true
  <-> Config.WEBHOOK_SECRET cfg <> []
      /\ exists key, encode (Config.WEBHOOK_SECRET cfg) = Some key
                     /\ signature = Hmac.hexdigest key payload.
Proof.
  unfold verify_signature.
  destruct (truthy (Config.WEBHOOK_SECRET cfg)) eqn:T; simpl.
  - apply truthy_nonempty in T.
    destruct (encode (Config.WEBHOOK_SECRET cfg)) as [key|].
    + rewrite compare_digest_true by apply hexdigest_is_ascii.
      split.
      * intros ->; split; [assumption | eauto].
      * intros (_ & key' & E & ->); injection E as <-; reflexivity.
    + split; [discriminate | intros (_ & key & E & _); discriminate].
  - split; [discriminate|].
    intros (H & _); destruct (Config.WEBHOOK_SECRET cfg); [congruence | discriminate].
Qed.

(** C5: [verify_signature] returns [True] exactly when the secret is not
    empty and the signature is the hexadecimal HMAC-SHA256 of the raw body
    under the secret; with an empty secret it returns [False] whatever the
    body and the signature. *)
Theorem verify_signature_spec (cfg : Config.t) (payload : bytes)
    (signature : str) :
  (verify_signature cfg payload signature = Ok true
   <-> Config.WEBHOOK_SECRET cfg <> []
       /\ exists key, encode (Config.WEBHOOK_SECRET cfg) = Some key
                      /\ signature = Hmac.hexdigest key payload)
  /\ verify_signature (Config.mk []) payload signature = Ok false.
Proof. split; [apply verify_signature_true | reflexivity]. Qed.

(** ** The webhook endpoint *)

Section WebhookProperties.

Variable datetime_validator : json -> option datetime.

Lemma request_validation_signature (req : Request.t)
    (payload : WebhookPayload.t) (x_signature : str) :
  request_validation datetime_validator req = Ok (payload, x_signature) ->
  Request.x_signature req = Some x_signature.
Proof.
  unfold request_validation.
  destruct (match Request.json_body req with
            | Some j => model_validate datetime_validator j
            | None => _
            end); destruct (Request.x_signature req); try discriminate.
  intros H; injection H as _ <-; reflexivity.
Qed.

(** C7: a request whose [X-Signature] is not the HMAC-SHA256 of the raw body
    under the secret is rejected and leaves the table as it was. *)
Theorem webhook_bad_signature_no_mutation (cfg : Config.t) (db : table)
    (utcnow : datetime) (req : Request.t) :
  (forall key, encode (Config.WEBHOOK_SECRET cfg) = Some key ->
               Request.x_signature req
               <> Some (Hmac.hexdigest key (Request.body req))) ->
  fst (webhook_endpoint datetime_validator cfg db utcnow req) = db
  /\ Response.status_code
       (snd (webhook_endpoint datetime_validator cfg db utcnow req)) <> 200.
Proof.
  intros Hbad. unfold webhook_endpoint.
  destruct (request_validation datetime_validator req) as [[payload sig]|errs] eqn:V;
    [|split; [reflexivity | discriminate]].
  apply request_validation_signature in V.
  destruct (verify_signature cfg (Request.body req) sig) as [[|]|e] eqn:S;
    try (split; [reflexivity | discriminate]).
  exfalso. apply verify_signature_true in S.
  destruct S as (_ & key & E & ->). exact (Hbad key E V).
Qed.


End WebhookProperties.

(** ** Payload validation *)

(** What [^\+\d+$] accepts: a plus sign, one or more decimal digits of any
    script, and possibly one final newline. *)
Lemma digits_then_end_spec (s : str) :
  Re.digits_then_end s = true
  <-> exists ds, forallb Re.decimal_digit ds = true /\ (s = ds \/ s = ds ++ [10]).
Proof.
  split.
  - induction s as [|c s IH]; [exists []; auto|].
    cbn [Re.digits_then_end]. destruct s as [|c' s].
    + intros H; apply orb_true_iff in H as [H|H].
      * exists [c]; simpl; rewrite H; auto.
      * apply Z.eqb_eq in H; subst; exists []; auto.
    + intros H; apply andb_true_iff in H as [Hc H].
      destruct (IH H) as (ds & Hds & Hs).
      exists (c :: ds); simpl; rewrite Hc, Hds.
      split; [reflexivity|]. destruct Hs as [->| ->]; auto.
  - intros (ds & Hds & Hs). revert s Hs.
    induction ds as [|c ds IH]; intros s Hs.
    + destruct Hs as [->| ->]; reflexivity.
    + simpl in Hds; apply andb_true_iff in Hds as [Hc Hds].
      assert (exists s', s = c :: s' /\ (s' = ds \/ s' = ds ++ [10]))
        as (s' & -> & Hs')
        by (destruct Hs as [->| ->];
            [exists ds | exists (ds ++ [10])]; simpl; auto).
      cbn [Re.digits_then_end]. rewrite Hc, (IH Hds s' Hs'); simpl.
      destruct s'; reflexivity.
Qed.

Lemma match_e164_spec (v : str) :
  Re.match_e164 v = true
  <-> exists ds, ds <> [] /\ forallb Re.decimal_digit ds = true
                 /\ (v = 43 :: ds \/ v = 43 :: ds ++ [10]).
Proof.
  split.
  - destruct v as [|p [|c s]]; try discriminate.
    + simpl; repeat (destruct p; try discriminate).
    + intros H.
      assert (p = 43 /\ Re.decimal_digit c && Re.digits_then_end s = true)
        as (-> & H').
      { simpl in H; repeat (destruct p; try discriminate); auto. }
      apply andb_true_iff in H' as [Hc Hs].
      apply digits_then_end_spec in Hs as (ds & Hds & Hs).
      exists (c :: ds); simpl; rewrite Hc, Hds.
      repeat split; [discriminate|]. destruct Hs as [->| ->]; auto.
  - intros (ds & Hne & Hds & Hv).
    destruct ds as [|c ds]; [congruence|].
    simpl in Hds; apply andb_true_iff in Hds as [Hc Hds].
    assert (exists s, v = 43 :: c :: s /\ (s = ds \/ s = ds ++ [10]))
      as (s & -> & Hs)
      by (destruct Hv as [->| ->];
          [exists ds | exists (ds ++ [10])]; simpl; auto).
    cbn [Re.match_e164]. rewrite Hc; simpl.
    apply digits_then_end_spec; eauto.
Qed.

Lemma validate_e164_ok (v v' : str) :
  validate_e164 v = Ok v' <-> v' = v /\ Re.match_e164 v = true.
Proof.
  unfold validate_e164; destruct v as [|c v].
  - simpl; split; [discriminate | intros [_ H]; discriminate].
  - cbn [truthy negb]. destruct (Re.match_e164 (c :: v)); simpl.
    + split; [intros H; injection H as <-; auto | intros [-> _]; auto].
    + split; [discriminate | intros [_ H]; discriminate].
Qed.

Lemma strip_nil : strip [] = [].
Proof. reflexivity. Qed.

Lemma validate_message_id_ok (v v' : str) :
  validate_message_id v = Ok v' <-> v' = strip v /\ strip v <> [].
Proof.
  unfold validate_message_id.
  destruct v as [|c v];
    [split; [discriminate | intros [_ H]; exfalso; apply H; reflexivity]|].
  cbn [truthy negb orb].
  destruct (strip (c :: v)) as [|c' s']; simpl.
  - split; [discriminate | intros [_ H]; congruence].
  - split; [intros H; injection H as <-; split; [auto | discriminate]
           | intros [-> _]; auto].
Qed.

Section ModelValidate.

Variable datetime_validator : json -> option datetime.

Lemma field_message_id_ok (m : list (str * json)) (v' : str) :
  field_message_id m = Ok v'
  <-> exists v, lookup (u "message_id") m = Some (JString v)
                /\ v' = strip v /\ strip v <> [].
Proof.
  unfold field_message_id.
  destruct (lookup (u "message_id") m) as [[| | |v| |]|];
    try (split; [discriminate | intros (? & H & _); discriminate]).
  destruct (Z.ltb_spec (len v) 1) as [Hl|Hl].
  - split; [discriminate|]. intros (v0 & H & _ & Hs); injection H as <-.
    destruct v; [rewrite strip_nil in Hs; congruence|].
    unfold len in Hl; simpl in Hl; lia.
  - destruct (validate_message_id v) as [w|e] eqn:E.
    + apply validate_message_id_ok in E as [-> Hs].
      split; [intros H; injection H as <-; eauto|].
      intros (v0 & H & -> & _); injection H as <-; reflexivity.
    + split; [discriminate|]. intros (v0 & H & Hv & Hs); injection H as <-.
      assert (validate_message_id v = Ok v') as E'
        by (apply validate_message_id_ok; auto).
      congruence.
Qed.

Lemma field_e164_ok (name : string) (o : option json) (v : str) :
  field_e164 name o = Ok v <-> o = Some (JString v) /\ Re.match_e164 v = true.
Proof.
  unfold field_e164.
  destruct o as [[| | |s| |]|];
    try (split; [discriminate | intros [H _]; discriminate]).
  destruct (validate_e164 s) as [w|e] eqn:E.
  - apply validate_e164_ok in E as [-> Hm].
    split; [intros H; injection H as <-; auto | intros [H _]; congruence].
  - split; [discriminate|]. intros [H Hm]; injection H as ->.
    assert (validate_e164 v = Ok v) as E' by (apply validate_e164_ok; auto).
    congruence.
Qed.

Lemma field_text_ok (m : list (str * json)) (x : option str) :
  field_text m = Ok x
  <-> (x = None /\ (lookup (u "text") m = None \/ lookup (u "text") m = Some JNull))
      \/ exists v, x = Some v /\ lookup (u "text") m = Some (JString v)
                   /\ len v <= 4096.
Proof.
  unfold field_text.
  destruct (lookup (u "text") m) as [[| | |v| |]|];
    try (split; [intros H; injection H as <-; auto
                | intros [[-> _]|(? & _ & H & _)]; [reflexivity | discriminate]]);
    try (split; [discriminate
                | intros [[_ [H|H]]|(? & _ & H & _)]; discriminate]).
  destruct (Z.ltb_spec 4096 (len v)).
  - split; [discriminate|].
    intros [[_ [H0|H0]]|(? & _ & H0 & ?)]; try discriminate.
    injection H0 as <-; lia.
  - split; [intros H0; injection H0 as <-; right; exists v; auto with zarith|].
    intros [[_ [H0|H0]]|(? & -> & H0 & ?)]; try discriminate.
    injection H0 as <-; reflexivity.
Qed.

(** What the validator accepts, and the normalised payload it yields:
    [message_id] is a string that is not empty once stripped, and is stored
    stripped; [from] and [to] are strings the regular expression matches;
    [ts] is a value the datetime validator reads; [text] is absent, null, or
    a string of at most 4096 characters. *)
Lemma model_validate_ok (m : list (str * json)) (p : WebhookPayload.t) :
  model_validate datetime_validator (JObject m) = Ok p
  <-> field_message_id m = Ok (WebhookPayload.message_id p)
      /\ field_from m = Ok (WebhookPayload.from_ p)
      /\ field_to m = Ok (WebhookPayload.to p)
      /\ field_ts datetime_validator m = Ok (WebhookPayload.ts p)
      /\ field_text m = Ok (WebhookPayload.text p).
Proof.
  unfold model_validate.
  destruct (field_message_id m), (field_from m), (field_to m),
    (field_ts datetime_validator m), (field_text m);
    (split;
     [ try discriminate; intros H; injection H as <-; simpl; auto
     | intros (H1 & H2 & H3 & H4 & H5); try discriminate;
       injection H1 as ->; injection H2 as ->; injection H3 as ->;
       injection H4 as ->; injection H5 as ->; destruct p; reflexivity ]).
Qed.

(** A rejected body names at least one field. *)
Lemma model_validate_errors (j : json) (errs : list field_error) :
  model_validate datetime_validator j = Raise errs -> errs <> [].
Proof.
  unfold model_validate. destruct j; try (intros H; injection H as <-; discriminate).
  destruct (field_message_id members), (field_from members), (field_to members),
    (field_ts datetime_validator members), (field_text members);
    intros H; try discriminate H; injection H as <-; discriminate.
Qed.

(** Members under other names are ignored. *)
Lemma model_validate_extra (k : str) (v : json) (m : list (str * json)) :
  existsb (str_eqb k)
    [u "message_id"; u "from"; u "from_"; u "to"; u "ts"; u "text"] = false ->
  model_validate datetime_validator (JObject ((k, v) :: m))
  = model_validate datetime_validator (JObject m).
Proof.
  cbn [existsb]; rewrite !orb_false_iff.
  intros (H1 & H2 & H3 & H4 & H5 & H6 & _).
  unfold model_validate, field_message_id, field_from, field_to, field_ts,
    field_text.
  cbn [lookup]. rewrite H1, H2, H3, H4, H5, H6. reflexivity.
Qed.

End ModelValidate.

(** ** Statistics *)

Lemma count_from_leb_total (a b : str * Z) :
  count_from_leb a b = true \/ count_from_leb b a = true.
Proof.
  unfold count_from_leb.
  destruct (Z.ltb_spec (snd b) (snd a)); auto.
  destruct (Z.ltb_spec (snd a) (snd b)); auto.
  apply str_leb_total.
Qed.

Lemma count_from_leb_trans (a b c : str * Z) :
  count_from_leb a b = true -> count_from_leb b c = true ->
  count_from_leb a c = true.
Proof.
  unfold count_from_leb.
  destruct (Z.ltb_spec (snd b) (snd a)), (Z.ltb_spec (snd a) (snd b)),
    (Z.ltb_spec (snd c) (snd b)), (Z.ltb_spec (snd b) (snd c)),
    (Z.ltb_spec (snd c) (snd a)), (Z.ltb_spec (snd a) (snd c));
    try discriminate; try lia; auto.
  apply str_leb_trans.
Qed.

Lemma distinct_In (l : list str) (x : str) : In x (distinct l) <-> In x l.
Proof.
  induction l as [|y l IH]; simpl; [tauto|].
  destruct (existsb (str_eqb y) l) eqn:E.
  - rewrite IH. split; auto. intros [->|H]; auto.
    apply existsb_exists in E as (z & Hz & Ez).
    apply str_eqb_eq in Ez; subst; assumption.
  - simpl; rewrite IH; tauto.
Qed.

Lemma distinct_NoDup (l : list str) : NoDup (distinct l).
Proof.
  induction l as [|y l IH]; simpl; [constructor|].
  destruct (existsb (str_eqb y) l) eqn:E; [assumption|].
  constructor; [|assumption].
  rewrite distinct_In; intros H.
  assert (existsb (str_eqb y) l = true)
    by (apply existsb_exists; exists y; auto using str_eqb_refl).
  congruence.
Qed.

Lemma top_senders_firstn (db : table) :
  top_senders db
  = firstn 10 (Sqlite.order_by count_from_leb (group_by_sender db)).
Proof. reflexivity. Qed.

(** At most ten senders are listed. *)
Lemma top_senders_at_most_10 (db : table) : len (top_senders db) <= 10.
Proof.
  rewrite top_senders_firstn; unfold len.
  pose proof (firstn_le_length 10
                (Sqlite.order_by count_from_leb (group_by_sender db))).
  lia.
Qed.

(** They come by count descending, then by sender ascending. *)
Lemma top_senders_sorted (db : table) :
  StronglySorted (fun a b => count_from_leb a b = true) (top_senders db).
Proof.
  rewrite top_senders_firstn.
  apply StronglySorted_firstn.
  apply order_by_sorted; [apply count_from_leb_total | apply count_from_leb_trans].
Qed.

(** Each listed sender is a sender of the table, with its number of rows. *)
Lemma top_senders_counts (db : table) (g : str * Z) :
  In g (top_senders db) ->
  In (fst g) (map Row.from_msisdn db) /\ snd g = count_from db (fst g).
Proof.
  unfold top_senders; intros H.
  apply limit_offset_incl in H.
  apply (proj1 (order_by_In count_from_leb _ _)) in H.
  unfold group_by_sender in H; apply in_map_iff in H as (s & <- & Hs).
  apply (proj1 (distinct_In _ _)) in Hs; simpl; split; [assumption | reflexivity].
Qed.

Lemma sorted_app_le {A} (R : A -> A -> Prop) (l1 l2 : list A) (x y : A) :
  StronglySorted R (l1 ++ l2) -> In x l1 -> In y l2 -> R x y.
Proof.
  induction l1 as [|a l1 IH]; simpl; [tauto|].
  intros H [->|Hx] Hy; inversion H as [|? ? Hs Hall]; subst.
  - rewrite Forall_forall in Hall; apply Hall, in_or_app; auto.
  - apply IH; assumption.
Qed.

(** A sender that is not listed ranks after every listed one. *)
Lemma top_senders_top (db : table) (g g' : str * Z) :
  In g (top_senders db) -> In g' (group_by_sender db) ->
  ~ In g' (top_senders db) -> count_from_leb g g' = true.
Proof.
  rewrite top_senders_firstn.
  set (l := Sqlite.order_by count_from_leb (group_by_sender db)).
  intros Hg Hg' Hnot.
  assert (Hs : StronglySorted (fun a b => count_from_leb a b = true) l)
    by (apply order_by_sorted;
        [apply count_from_leb_total | apply count_from_leb_trans]).
  rewrite <- (firstn_skipn 10 l) in Hs.
  apply (sorted_app_le _ _ _ g g' Hs Hg).
  apply (proj2 (order_by_In count_from_leb _ _)) in Hg'. fold l in Hg'.
  rewrite <- (firstn_skipn 10 l) in Hg'.
  apply in_app_or in Hg' as [H|H]; [contradiction | assumption].
Qed.

Lemma fold_str_min (l : list str) (x : str) :
  let m := fold_left Sqlite.str_min l x in
  In m (x :: l) /\ forall y, In y (x :: l) -> str_leb m y = true.
Proof.
  revert x; induction l as [|z l IH]; intros x; simpl.
  - split; [auto|]. intros y [<-|[]]; apply str_leb_refl.
  - destruct (IH (Sqlite.str_min x z)) as [Hin Hle]. simpl in Hin.
    assert (Hmin : str_leb (Sqlite.str_min x z) x = true
                   /\ str_leb (Sqlite.str_min x z) z = true
                   /\ (Sqlite.str_min x z = x \/ Sqlite.str_min x z = z)).
    { unfold Sqlite.str_min. destruct (str_leb x z) eqn:E.
      - auto using str_leb_refl.
      - destruct (str_leb_total x z); [congruence|]; auto using str_leb_refl. }
    destruct Hmin as (Hx & Hz & Hor).
    split.
    + destruct Hin as [<-|Hin]; [destruct Hor as [->| ->]|]; auto.
    + intros y [<-|[<-|Hy]].
      * eapply str_leb_trans; [apply Hle; simpl; auto | exact Hx].
      * eapply str_leb_trans; [apply Hle; simpl; auto | exact Hz].
      * apply Hle; simpl; auto.
Qed.

Lemma fold_str_max (l : list str) (x : str) :
  let m := fold_left Sqlite.str_max l x in
  In m (x :: l) /\ forall y, In y (x :: l) -> str_leb y m = true.
Proof.
  revert x; induction l as [|z l IH]; intros x; simpl.
  - split; [auto|]. intros y [<-|[]]; apply str_leb_refl.
  - destruct (IH (Sqlite.str_max x z)) as [Hin Hle]. simpl in Hin.
    assert (Hmax : str_leb x (Sqlite.str_max x z) = true
                   /\ str_leb z (Sqlite.str_max x z) = true
                   /\ (Sqlite.str_max x z = x \/ Sqlite.str_max x z = z)).
    { unfold Sqlite.str_max. destruct (str_leb x z) eqn:E.
      - auto using str_leb_refl.
      - destruct (str_leb_total x z); [congruence|]; auto using str_leb_refl. }
    destruct Hmax as (Hx & Hz & Hor).
    split.
    + destruct Hin as [<-|Hin]; [destruct Hor as [->| ->]|]; auto.
    + intros y [<-|[<-|Hy]].
      * eapply str_leb_trans; [exact Hx | apply Hle; simpl; auto].
      * eapply str_leb_trans; [exact Hz | apply Hle; simpl; auto].
      * apply Hle; simpl; auto.
Qed.

(** [MIN(ts)] and [MAX(ts)] are the least and the greatest stored text. *)
Lemma agg_min_max (l : list str) :
  match Sqlite.agg Sqlite.str_min l, Sqlite.agg Sqlite.str_max l with
  | Some lo, Some hi =>
      In lo l /\ In hi l
      /\ forall y, In y l -> str_leb lo y = true /\ str_leb y hi = true
  | None, None => l = []
  | _, _ => False
  end.
Proof.
  destruct l as [|x l]; [reflexivity|]. cbn [Sqlite.agg].
  destruct (fold_str_min l x) as [H1 H2], (fold_str_max l x) as [H3 H4].
  repeat split; auto.
Qed.

(** On an empty table there is no sender and no timestamp. *)
Lemma get_stats_empty :
  get_stats [] = Ok (StatsResponse.mk 0 0 [] None None).
Proof. reflexivity. Qed.

(** ** When the stored text orders like the instants *)

Lemma str_compare_app (a b x y : str) :
  List.length a = List.length b ->
  str_compare (a ++ x) (b ++ y) = lex (str_compare a b) (str_compare x y).
Proof.
  revert b; induction a as [|c a IH]; intros [|c' b] H; try discriminate.
  - reflexivity.
  - simpl. destruct (c ?= c'); simpl; auto.
Qed.

Lemma str_compare_cons (c : Z) (x y : str) :
  str_compare (c :: x) (c :: y) = str_compare x y.
Proof. simpl; rewrite Z.compare_refl; reflexivity. Qed.

Lemma pad_length (n : nat) (v : Z) : List.length (pad n v) = n.
Proof. induction n; simpl; auto. Qed.

Lemma str_compare_pad_mod (n : nat) (v w : Z) :
  str_compare (pad n v) (pad n w)
  = (v mod 10 ^ Z.of_nat n ?= w mod 10 ^ Z.of_nat n).
Proof.
  induction n as [|n IH].
  - simpl; rewrite !Z.mod_1_r; reflexivity.
  - cbn [pad str_compare].
    assert (Hp : 0 < 10 ^ Z.of_nat n) by (apply Z.pow_pos_nonneg; lia).
    rewrite Nat2Z.inj_succ, Z.pow_succ_r by lia.
    rewrite (Z.mul_comm 10 (10 ^ Z.of_nat n)), !Z.rem_mul_r by lia.
    rewrite IH, Z.add_compare_mono_l.
    set (P := 10 ^ Z.of_nat n) in *.
    pose proof (Z.mod_pos_bound v P Hp).
    pose proof (Z.mod_pos_bound w P Hp).
    set (a := v mod P) in *. set (b := w mod P) in *.
    set (dv := (v / P) mod 10). set (dw := (w / P) mod 10).
    destruct (Z.compare_spec dv dw) as [E|E|E].
    + rewrite E, (Z.add_comm a), (Z.add_comm b), Z.add_compare_mono_l.
      reflexivity.
    + symmetry; apply Z.compare_lt_iff; nia.
    + symmetry; apply Z.compare_gt_iff; nia.
Qed.

Lemma str_compare_pad (n : nat) (v w : Z) :
  0 <= v < 10 ^ Z.of_nat n -> 0 <= w < 10 ^ Z.of_nat n ->
  str_compare (pad n v) (pad n w) = (v ?= w).
Proof.
  intros Hv Hw; rewrite str_compare_pad_mod, !Z.mod_small by assumption.
  reflexivity.
Qed.

(** The fraction and the offset: with the same offset on both sides, the
    texts compare like the microseconds. *)
Lemma str_compare_fraction (us1 us2 : Z) (tz : option Z) :
  0 <= us1 <= 999999 -> 0 <= us2 <= 999999 ->
  str_compare
    ((if us1 =? 0 then [] else 46 :: pad 6 us1) ++ format_offset tz)
    ((if us2 =? 0 then [] else 46 :: pad 6 us2) ++ format_offset tz)
  = (us1 ?= us2).
Proof.
  intros H1 H2.
  assert (Hlt : forall rest, str_compare (format_offset tz) (46 :: rest) = Lt).
  { intros rest; destruct tz as [off|]; [|reflexivity].
    unfold format_offset; destruct (off <? 0); reflexivity. }
  destruct (Z.eqb_spec us1 0) as [E1|E1], (Z.eqb_spec us2 0) as [E2|E2];
    cbn [app].
  - subst; apply str_compare_refl.
  - rewrite Hlt; symmetry; apply Z.compare_lt_iff; lia.
  - rewrite str_compare_antisym, Hlt; simpl.
    symmetry; apply Z.compare_gt_iff; lia.
  - rewrite str_compare_cons, str_compare_app by (rewrite !pad_length; reflexivity).
    rewrite str_compare_pad by (simpl; lia).
    rewrite str_compare_refl. destruct (us1 ?= us2); reflexivity.
Qed.

(** Two valid values with the same offset: their ISO-8601 texts compare like
    their fields. *)
Lemma isoformat_compare_fields (a b : datetime) :
  valid_datetime a = true -> valid_datetime b = true ->
  tzinfo a = tzinfo b ->
  str_compare (isoformat a) (isoformat b) = fields_compare a b.
Proof.
  intros Va Vb Htz.
  pose proof (valid_datetime_bounds a Va) as Ba.
  pose proof (valid_datetime_bounds b Vb) as Bb.
  decompose [and] Ba; decompose [and] Bb; clear Ba Bb.
  unfold isoformat, fields_compare. rewrite Htz.
  repeat (rewrite str_compare_app by (rewrite !pad_length; reflexivity);
          rewrite str_compare_pad by (simpl; lia);
          f_equal; cbn [app]; try rewrite str_compare_cons).
  apply str_compare_fraction; lia.
Qed.

Lemma lex_assoc (a b c : comparison) : lex (lex a b) c = lex a (lex b c).
Proof. destruct a; reflexivity. Qed.

(** Two numbers written in base [B] compare digit by digit. *)
Lemma compare_scale (B h1 h2 x1 x2 : Z) :
  0 <= x1 < B -> 0 <= x2 < B ->
  (h1 * B + x1 ?= h2 * B + x2) = lex (h1 ?= h2) (x1 ?= x2).
Proof.
  intros H1 H2. destruct (Z.compare_spec h1 h2) as [->|E|E]; simpl.
  - rewrite Z.add_compare_mono_l; reflexivity.
  - apply Z.compare_lt_iff; nia.
  - apply Z.compare_gt_iff; nia.
Qed.

Lemma days_before_year_succ (y : Z) :
  days_before_year (y + 1) = days_before_year y + days_in_year y.
Proof.
  unfold days_before_year, days_in_year, is_leap.
  replace (y + 1 - 1) with y by lia.
  destruct (Z.eqb_spec (y mod 4) 0), (Z.eqb_spec (y mod 100) 0),
    (Z.eqb_spec (y mod 400) 0); simpl;
    Z.to_euclidean_division_equations; lia.
Qed.

Lemma days_before_year_mono (y1 y2 : Z) :
  y1 <= y2 -> days_before_year y1 <= days_before_year y2.
Proof.
  unfold days_before_year; intros H.
  Z.to_euclidean_division_equations; lia.
Qed.

Lemma month_cases (m : Z) :
  1 <= m <= 12 ->
  m = 1 \/ m = 2 \/ m = 3 \/ m = 4 \/ m = 5 \/ m = 6 \/ m = 7 \/ m = 8
  \/ m = 9 \/ m = 10 \/ m = 11 \/ m = 12.
Proof. lia. Qed.

Ltac month_table :=
  repeat match goal with
         | |- context [nth ?n ?l ?x] =>
             let v := eval vm_compute in (nth n l x) in
             change (nth n l x) with v
         | |- context [if ?c then ?a else ?b] =>
             let v := eval vm_compute in (if c then a else b) in
             change (if c then a else b) with v
         end.

(** The day of the year of a valid date lies within the year. *)
Lemma day_of_year_bounds (y m d : Z) :
  1 <= m <= 12 -> 1 <= d <= days_in_month y m ->
  1 <= days_before_month y m + d <= days_in_year y.
Proof.
  intros Hm. unfold days_in_year, days_before_month, days_in_month.
  generalize (is_leap y); intros l.
  destruct (month_cases m Hm) as [E|[E|[E|[E|[E|[E|[E|[E|[E|[E|[E|E]]]]]]]]]]];
    subst m; destruct l; month_table; lia.
Qed.

(** Within a year, a later month starts after every day of an earlier one. *)
Lemma days_before_month_lt (y m1 m2 d1 d2 : Z) :
  1 <= m1 <= 12 -> 1 <= m2 <= 12 -> m1 < m2 ->
  1 <= d1 <= days_in_month y m1 -> 1 <= d2 ->
  days_before_month y m1 + d1 < days_before_month y m2 + d2.
Proof.
  intros H1 H2 Hlt. unfold days_before_month, days_in_month.
  generalize (is_leap y); intros l.
  destruct (month_cases m1 H1) as [E|[E|[E|[E|[E|[E|[E|[E|[E|[E|[E|E]]]]]]]]]]];
    subst m1;
    destruct (month_cases m2 H2) as [E|[E|[E|[E|[E|[E|[E|[E|[E|[E|[E|E]]]]]]]]]]];
    subst m2; try lia; destruct l; month_table; lia.
Qed.

Lemma valid_datetime_day (d : datetime) :
  valid_datetime d = true -> 1 <= day d <= days_in_month (year d) (month d).
Proof.
  unfold valid_datetime, between; rewrite !andb_true_iff; intros H.
  decompose [and] H; lia.
Qed.

(** Ordinals of valid dates compare like (year, month, day). *)
Lemma toordinal_compare (a b : datetime) :
  valid_datetime a = true -> valid_datetime b = true ->
  (toordinal a ?= toordinal b)
  = lex (year a ?= year b) (lex (month a ?= month b) (day a ?= day b)).
Proof.
  intros Va Vb.
  pose proof (valid_datetime_bounds a Va) as Ba.
  pose proof (valid_datetime_bounds b Vb) as Bb.
  pose proof (valid_datetime_day a Va) as Da.
  pose proof (valid_datetime_day b Vb) as Db.
  decompose [and] Ba; decompose [and] Bb; clear Ba Bb.
  pose proof (day_of_year_bounds (year a) (month a) (day a) ltac:(lia) Da).
  pose proof (day_of_year_bounds (year b) (month b) (day b) ltac:(lia) Db).
  unfold toordinal.
  destruct (Z.compare_spec (year a) (year b)) as [Ey|Ey|Ey]; simpl.
  - rewrite Ey in *.
    destruct (Z.compare_spec (month a) (month b)) as [Em|Em|Em]; simpl.
    + rewrite Em, <- !Z.add_assoc, !Z.add_compare_mono_l; reflexivity.
    + apply Z.compare_lt_iff.
      pose proof (days_before_month_lt (year b) (month a) (month b) (day a)
                    (day b) ltac:(lia) ltac:(lia) Em Da ltac:(lia)).
      lia.
    + apply Z.compare_gt_iff.
      pose proof (days_before_month_lt (year b) (month b) (month a) (day b)
                    (day a) ltac:(lia) ltac:(lia) Em Db ltac:(lia)).
      lia.
  - apply Z.compare_lt_iff.
    pose proof (days_before_year_succ (year a)).
    pose proof (days_before_year_mono (year a + 1) (year b) ltac:(lia)).
    lia.
  - apply Z.compare_gt_iff.
    pose proof (days_before_year_succ (year b)).
    pose proof (days_before_year_mono (year b + 1) (year a) ltac:(lia)).
    lia.
Qed.

(** Two valid values with the same offset: the fields compare like the
    instants. *)
Lemma fields_compare_instant (a b : datetime) :
  valid_datetime a = true -> valid_datetime b = true ->
  tzinfo a = tzinfo b ->
  fields_compare a b = (utc_micros a ?= utc_micros b).
Proof.
  intros Va Vb Htz.
  pose proof (valid_datetime_bounds a Va) as Ba.
  pose proof (valid_datetime_bounds b Vb) as Bb.
  decompose [and] Ba; decompose [and] Bb; clear Ba Bb.
  unfold utc_micros, fields_compare. rewrite Htz.
  set (off := match tzinfo b with Some o => o | None => 0 end).
  replace ((((toordinal a * 24 + hour a) * 60 + minute a) * 60 + second a - off)
           * 1000000 + microsecond a)
    with (- off * 1000000
          + ((((toordinal a * 24 + hour a) * 60 + minute a) * 60 + second a)
             * 1000000 + microsecond a)) by ring.
  replace ((((toordinal b * 24 + hour b) * 60 + minute b) * 60 + second b - off)
           * 1000000 + microsecond b)
    with (- off * 1000000
          + ((((toordinal b * 24 + hour b) * 60 + minute b) * 60 + second b)
             * 1000000 + microsecond b)) by ring.
  rewrite Z.add_compare_mono_l.
  rewrite !compare_scale by lia.
  rewrite toordinal_compare by assumption.
  rewrite !lex_assoc. reflexivity.
Qed.

(** With one UTC offset throughout, the order of the stored texts is the
    order of the instants. *)
Lemma isoformat_compare_instant (a b : datetime) :
  valid_datetime a = true -> valid_datetime b = true ->
  tzinfo a = tzinfo b ->
  str_compare (isoformat a) (isoformat b) = (utc_micros a ?= utc_micros b).
Proof.
  intros Va Vb Htz.
  rewrite isoformat_compare_fields, fields_compare_instant by assumption.
  reflexivity.
Qed.

Lemma StronglySorted_Forall2 {A B} (R : A -> A -> Prop) (S : B -> B -> Prop)
    (F : A -> B -> Prop) (l : list A) (l' : list B) :
  (forall x x' y y', In x l -> In x' l -> R x x' -> F x y -> F x' y' -> S y y') ->
  StronglySorted R l -> Forall2 F l l' -> StronglySorted S l'.
Proof.
  intros H Hs F2; revert H Hs.
  induction F2 as [|x y l l' Hxy F2 IH]; intros H Hs; [constructor|].
  inversion Hs as [|? ? Hs' Hall]; subst.
  constructor.
  - apply IH; [|assumption].
    intros a a' b b' Ha Ha' HR HF HF'; apply (H a a' b b'); simpl; auto.
  - apply Forall_forall; intros y' Hy'.
    destruct (Forall2_In_r _ _ _ y' F2 Hy') as (x' & Hx' & Hf).
    rewrite Forall_forall in Hall.
    eapply (H x x' y y'); simpl; auto.
Qed.

Lemma row_to_message_written (tz : option Z) (r : Row.t) (m : Message.t) :
  written_with tz r -> row_to_message r = Ok m ->
  valid_datetime (Message.ts m) = true /\ tzinfo (Message.ts m) = tz
  /\ Row.ts r = isoformat (Message.ts m)
  /\ Message.message_id m = Row.message_id r.
Proof.
  intros (d & V & T & E). unfold row_to_message, parse_ts.
  rewrite E, fromisoformat_isoformat by assumption.
  destruct (fromisoformat (Row.created_at r)); [|discriminate].
  intros H; injection H as <-; simpl; auto.
Qed.

(** X26: while every stored timestamp carries the same UTC offset, the page
    of [get_messages] is ordered oldest first, then by [message_id]. *)
Lemma get_messages_oldest_first_same_offset (tz : option Z) (db : table)
    (limit offset : Z) (f : option str) (s : option datetime) (q : option str)
    (messages : list Message.t) (total : Z) :
  Forall (written_with tz) db ->
  get_messages db limit offset f s q = Ok (messages, total) ->
  StronglySorted oldest_first messages.
Proof.
  intros W H. unfold get_messages in H.
  destruct (traverse row_to_message _) as [ms|] eqn:E; [|discriminate].
  injection H as <- _. apply traverse_Forall2 in E.
  eapply StronglySorted_Forall2; [|apply select_page_sorted|exact E].
  intros r r' m m' Hr Hr' Hle Hm Hm'.
  rewrite Forall_forall in W.
  apply select_page_incl, matching_incl in Hr, Hr'.
  destruct (row_to_message_written tz r m (W r Hr) Hm) as (V & T & E1 & I).
  destruct (row_to_message_written tz r' m' (W r' Hr') Hm') as (V' & T' & E1' & I').
  unfold oldest_first, datetime_compare. rewrite T, T'.
  unfold ts_id_leb in Hle. rewrite E1, E1', I, I' in *.
  rewrite isoformat_compare_instant in Hle by congruence.
  destruct tz; destruct (utc_micros (Message.ts m) ?= utc_micros (Message.ts m'));
    auto; discriminate.
Qed.

Lemma ts_of_aggregate_written (tz : option Z) (db : table) (v : str)
    (o : option datetime) :
  Forall (written_with tz) db -> In v (map Row.ts db) ->
  ts_of_aggregate (Some v) = Ok o ->
  exists d, o = Some d /\ valid_datetime d = true /\ tzinfo d = tz
            /\ v = isoformat d.
Proof.
  intros W Hin. apply in_map_iff in Hin as (r & <- & Hr).
  rewrite Forall_forall in W. destruct (W r Hr) as (d & V & T & E).
  unfold ts_of_aggregate, parse_ts.
  rewrite E, fromisoformat_isoformat by assumption.
  destruct (truthy (isoformat d)) eqn:Tr.
  - intros H; injection H as <-; eauto.
  - unfold isoformat in Tr; discriminate.
Qed.

(** X27: while every stored timestamp carries the same UTC offset,
    [first_message_ts] and [last_message_ts] are the earliest and the latest
    of the stored timestamps. *)
Lemma get_stats_first_last_same_offset (tz : option Z) (db : table)
    (st : StatsResponse.t) (r : Row.t) (d : datetime) :
  Forall (written_with tz) db -> get_stats db = Ok st ->
  In r db -> valid_datetime d = true -> tzinfo d = tz ->
  Row.ts r = isoformat d ->
  exists lo hi,
    StatsResponse.first_message_ts st = Some lo
    /\ StatsResponse.last_message_ts st = Some hi
    /\ utc_micros lo <= utc_micros d <= utc_micros hi.
Proof.
  intros W H Hr V T E. unfold get_stats in H.
  pose proof (agg_min_max (map Row.ts db)) as MM.
  destruct (Sqlite.agg Sqlite.str_min (map Row.ts db)) as [lo|],
    (Sqlite.agg Sqlite.str_max (map Row.ts db)) as [hi|]; try contradiction.
  - destruct MM as (Hlo & Hhi & Hall).
    destruct (ts_of_aggregate (Some lo)) as [olo|] eqn:Elo; [|discriminate].
    destruct (ts_of_aggregate (Some hi)) as [ohi|] eqn:Ehi; [|discriminate].
    injection H as <-; simpl.
    destruct (ts_of_aggregate_written tz db lo olo W Hlo Elo)
      as (dlo & -> & Vlo & Tlo & ->).
    destruct (ts_of_aggregate_written tz db hi ohi W Hhi Ehi)
      as (dhi & -> & Vhi & Thi & ->).
    exists dlo, dhi. split; [reflexivity|]. split; [reflexivity|].
    destruct (Hall (isoformat d)) as [H1 H2].
    { rewrite <- E; apply in_map; assumption. }
    unfold str_leb in H1, H2.
    rewrite isoformat_compare_instant in H1, H2 by congruence.
    split.
    + destruct (Z.compare_spec (utc_micros dlo) (utc_micros d));
        lia || discriminate.
    + destruct (Z.compare_spec (utc_micros d) (utc_micros dhi));
        lia || discriminate.
  - apply map_eq_nil in MM; subst; contradiction.
Qed.

(** ** The service on sample requests *)

(** X2: rows already stored stay, alone under their [message_id], through
    any run of later insertions. *)
Lemma stored_row_permanent (calls : list (datetime * WebhookPayload.t))
    (db : table) (r : Row.t) :
  unique_keys db -> In r db ->
  filter (same_id (Row.message_id r)) (insert_all db calls) = [r].
Proof.
  unfold insert_all; revert db; induction calls as [|c calls IH];
    intros db U Hin; simpl.
  - apply unique_keys_filter; assumption.
  - apply IH; [apply unique_keys_insert_message | apply insert_message_keeps];
      assumption.
Qed.

(** X1: tables built by insertions of valid datetimes keep the primary key
    unique and can be read back. *)
Lemma insert_all_invariant (calls : list (datetime * WebhookPayload.t))
    (db : table) :
  Forall (fun c => valid_datetime (fst c) = true
                   /\ valid_datetime (WebhookPayload.ts (snd c)) = true) calls ->
  unique_keys db -> readable db = true ->
  unique_keys (insert_all db calls) /\ readable (insert_all db calls) = true.
Proof.
  unfold insert_all; intros V; revert db.
  induction V as [|c calls [Vn Vt] _ IH]; intros db U R; simpl; [auto|].
  apply IH; [apply unique_keys_insert_message | apply readable_insert_message];
    assumption.
Qed.

(** The digest and the MAC on published test vectors (FIPS 180-4 and
    RFC 4231, test case 2). *)
Example sha256_abc :
  Hashlib.hex (Hashlib.sha256 (u "abc"))
  = u "ba7816bf8f01cfea414140de5dae2223b00361a396177a9cb410ff61f20015ad".
Proof. vm_compute; reflexivity. Qed.

Example hmac_sha256_rfc4231 :
  Hmac.hexdigest (u "Jefe") (u "what do ya want for nothing?")
  = u "5bdcc146bf60754e6a042426089575c75a003f089d2739839dec58b964ec3843".
Proof. vm_compute; reflexivity. Qed.

(** A signed request is stored and answered 200; sent again, it is answered
    200 as a duplicate and the table does not change. *)
Example webhook_created_then_duplicate :
  let req := Request.mk Sample.body_ok (Some Sample.json_ok)
               (Some (Hmac.hexdigest (u "testsecret") Sample.body_ok)) in
  let first := webhook_endpoint iso_datetime Sample.cfg [] Sample.now1 req in
  let second :=
    webhook_endpoint iso_datetime Sample.cfg (fst first) Sample.now2 req in
  snd first = Response.mk 200 [] (Some "created"%string)
  /\ snd second = Response.mk 200 [] (Some "duplicate"%string)
  /\ fst second = fst first
  /\ len (fst first) = 1.
Proof. vm_compute; repeat split; reflexivity. Qed.

(** Three messages of one sender and two of another. *)
Example top_senders_three_two :
  let a := u "+911111111111" in
  let b := u "+912222222222" in
  let row (id : str) (s : str) :=
    Row.mk id s Sample.recipient (isoformat Sample.ts_utc) None
      (isoformat Sample.now1) in
  top_senders [row (u "b1") b; row (u "a1") a; row (u "a2") a;
               row (u "b2") b; row (u "a3") a]
  = [(a, 3); (b, 2)].
Proof. vm_compute; reflexivity. Qed.

Lemma insert_message_idempotent_witness :
  has_key [] (u "m1") = false
  /\ let first :=
       insert_message [] Sample.now1 (u "m1") Sample.sender Sample.recipient
         Sample.ts_utc (Some (u "Hello")) in
     snd first = true
     /\ insert_message (fst first) Sample.now2 (u "m1") Sample.recipient
          Sample.sender Sample.ts_minus5 None = (fst first, false)
     /\ filter (same_id (u "m1")) (fst first)
        = [Row.mk (u "m1") Sample.sender Sample.recipient
             (isoformat Sample.ts_utc) (Some (u "Hello"))
             (isoformat Sample.now1)].
Proof.
  split; [reflexivity | apply insert_message_idempotent; reflexivity].
Defined.

(** C2 on two messages with different UTC offsets: the page is ordered by
    the stored text, so the message of 14:00 UTC (written [09:00-05:00])
    comes before the message of 10:00 UTC, and the page is not sorted by
    timestamp. *)
Theorem get_messages_mixed_offsets :
  let later :=
    Message.mk (u "m2") Sample.sender Sample.recipient Sample.ts_minus5 None
      Sample.now2 in
  let earlier :=
    Message.mk (u "m1") Sample.sender Sample.recipient Sample.ts_utc
      (Some (u "first")) Sample.now1 in
  get_messages Sample.db_mixed 50 0 None None None = Ok ([later; earlier], 2)
  /\ datetime_compare (Message.ts later) (Message.ts earlier) = Some Gt
  /\ ~ StronglySorted oldest_first [later; earlier].
Proof.
  split; [vm_compute; reflexivity|]. split; [vm_compute; reflexivity|].
  intros H. inversion H as [|? ? _ Hall]; subst.
  inversion Hall as [|? ? Hfirst _]; subst.
  vm_compute in Hfirst. exact Hfirst.
Qed.



(** C6 on two messages with different UTC offsets: [first_message_ts] is
    the message of 14:00 UTC and [last_message_ts] the message of 10:00 UTC,
    because [MIN] and [MAX] compare the stored text. *)
Theorem get_stats_mixed_offsets :
  get_stats Sample.db_mixed
  = Ok (StatsResponse.mk 2 1 [SenderStats.mk Sample.sender 2]
          (Some Sample.ts_minus5) (Some Sample.ts_utc))
  /\ datetime_compare Sample.ts_minus5 Sample.ts_utc = Some Gt.
Proof. split; vm_compute; reflexivity. Qed.

Lemma webhook_bad_signature_no_mutation_witness :
  let req := Request.mk Sample.body_ok (Some Sample.json_ok)
               (Some (u "invalid_signature")) in
  (forall key, encode (Config.WEBHOOK_SECRET Sample.cfg) = Some key ->
               Request.x_signature req
               <> Some (Hmac.hexdigest key (Request.body req)))
  /\ fst (webhook_endpoint iso_datetime Sample.cfg Sample.db_mixed Sample.now1 req)
     = Sample.db_mixed
  /\ Response.status_code
       (snd (webhook_endpoint iso_datetime Sample.cfg Sample.db_mixed
               Sample.now1 req)) <> 200.
Proof.
  assert (H : forall key,
             encode (Config.WEBHOOK_SECRET Sample.cfg) = Some key ->
             Some (u "invalid_signature")
             <> Some (Hmac.hexdigest key Sample.body_ok)).
  { intros key E; vm_compute in E; injection E as <-; vm_compute; discriminate. }
  split; [exact H|].
  apply (webhook_bad_signature_no_mutation iso_datetime); exact H.
Defined.

(** C8 on a sender that ends with a newline, and on one written with
    Arabic-Indic digits: both pass the validator. *)
Theorem model_validate_accepts_newline :
  model_validate iso_datetime Sample.json_newline
  = Ok (WebhookPayload.mk (u "m1") (u "+123" ++ [10]) Sample.recipient
          Sample.ts_utc None)
  /\ validate_e164 [43; 1633; 1634; 1635] = Ok [43; 1633; 1634; 1635].
Proof. split; vm_compute; reflexivity. Qed.

Lemma search_excludes_null_text_witness :
  u "first" <> []
  /\ Forall (fun r => Row.text r <> None)
       (matching Sample.db_mixed None None (Some (u "first")))
  /\ get_messages Sample.db_mixed 50 0 None None (Some (u "first"))
     = get_messages (filter has_text Sample.db_mixed) 50 0 None None
         (Some (u "first"))
  /\ forall messages total,
       get_messages Sample.db_mixed 50 0 None None (Some (u "first"))
       = Ok (messages, total) ->
       Forall (fun m => Message.text m <> None) messages.
Proof.
  assert (H : u "first" <> []) by (vm_compute; discriminate).
  split; [exact H | apply search_excludes_null_text; exact H].
Defined.

(** * Further properties of the code *)

(** ** Insertion and reading back *)

Lemma insert_all_invariant_witness :
  let calls :=
    [(Sample.now1,
      WebhookPayload.mk (u "m1") Sample.sender Sample.recipient Sample.ts_utc
        (Some (u "first")));
     (Sample.now2,
      WebhookPayload.mk (u "m1") Sample.sender Sample.recipient
        Sample.ts_minus5 None)] in
  Forall (fun c => valid_datetime (fst c) = true
                   /\ valid_datetime (WebhookPayload.ts (snd c)) = true) calls
  /\ unique_keys [] /\ readable [] = true
  /\ unique_keys (insert_all [] calls)
  /\ readable (insert_all [] calls) = true.
Proof.
  assert (V : Forall (fun c => valid_datetime (fst c) = true
                   /\ valid_datetime (WebhookPayload.ts (snd c)) = true)
    [(Sample.now1,
      WebhookPayload.mk (u "m1") Sample.sender Sample.recipient Sample.ts_utc
        (Some (u "first")));
     (Sample.now2,
      WebhookPayload.mk (u "m1") Sample.sender Sample.recipient
        Sample.ts_minus5 None)])
    by (repeat constructor).
  split; [exact V|]. split; [constructor|]. split; [reflexivity|].
  apply insert_all_invariant; [exact V | constructor | reflexivity].
Defined.

Lemma stored_row_permanent_witness :
  let r := Row.mk (u "m1") Sample.sender Sample.recipient
             (isoformat Sample.ts_utc) (Some (u "first"))
             (isoformat Sample.now1) in
  let calls :=
    [(Sample.now2,
      WebhookPayload.mk (u "m1") Sample.recipient Sample.sender
        Sample.ts_minus5 None);
     (Sample.now2,
      WebhookPayload.mk (u "m2") Sample.sender Sample.recipient
        Sample.ts_minus5 None)] in
  unique_keys [r] /\ In r [r]
  /\ filter (same_id (Row.message_id r)) (insert_all [r] calls) = [r].
Proof.
  assert (U : unique_keys
                [Row.mk (u "m1") Sample.sender Sample.recipient
                   (isoformat Sample.ts_utc) (Some (u "first"))
                   (isoformat Sample.now1)])
    by (repeat constructor; simpl; tauto).
  split; [exact U|]. split; [simpl; auto|].
  apply stored_row_permanent; [exact U | simpl; auto].
Defined.

Lemma traverse_In {A B} (f : A -> result string B) (l : list A) (ys : list B)
    (x : A) (y : B) :
  traverse f l = Ok ys -> In x l -> f x = Ok y -> In y ys.
Proof.
  intros H; apply traverse_Forall2 in H.
  induction H as [|x' y' l l' Hxy _ IH]; simpl; [tauto|].
  intros [->|Hin] Hf; [left; congruence | right; auto].
Qed.

Lemma matching_all (db : table) : matching db None None None = db.
Proof.
  unfold matching; simpl. induction db as [|r db IH]; simpl; congruence.
Qed.

Lemma limit_offset_all {A} (limit : Z) (l : list A) :
  len l <= limit -> Sqlite.limit_offset limit 0 l = l.
Proof.
  intros H; unfold Sqlite.limit_offset, len in *; simpl.
  destruct (limit <? 0); [reflexivity | apply firstn_all2; lia].
Qed.

(** X3: a message inserted under a new id is read back by [get_messages]
    with the fields it was inserted with, its [ts] and the clock reading
    included, and the total grows by one. *)
Theorem insert_then_get_messages (db : table) (now : datetime)
    (id f t : str) (ts : datetime) (x : option str) (limit : Z) :
  readable db = true -> has_key db id = false ->
  valid_datetime ts = true -> valid_datetime now = true ->
  len db < limit ->
  exists messages,
    get_messages (fst (insert_message db now id f t ts x)) limit 0
      None None None = Ok (messages, len db + 1)
    /\ In (Message.mk id f t ts x now) messages.
Proof.
  intros R K Vt Vn L.
  pose proof (readable_insert_message db now id f t ts x Vt Vn R) as R'.
  rewrite insert_message_created in * by assumption. simpl in *.
  set (row := Row.mk id f t (isoformat ts) x (isoformat now)) in *.
  assert (Hlen : len (db ++ [row]) = len db + 1)
    by (unfold len; rewrite length_app; simpl; lia).
  unfold get_messages, select_page. rewrite matching_all, Hlen.
  rewrite limit_offset_all
    by (unfold len in *; rewrite order_by_length; lia).
  destruct (traverse_ok row_to_message (Sqlite.order_by ts_id_leb (db ++ [row])))
    as [ms Hms].
  { intros r Hr. apply (proj1 (order_by_In ts_id_leb _ _)) in Hr.
    unfold readable in R'; rewrite forallb_forall in R'.
    specialize (R' r Hr); unfold row_readable in R'.
    destruct (row_to_message r); [eauto | discriminate]. }
  rewrite Hms. exists ms. split; [reflexivity|].
  apply (traverse_In _ _ _ row _ Hms).
  - apply (proj2 (order_by_In ts_id_leb _ _)), in_or_app; simpl; auto.
  - unfold row_to_message, parse_ts, row; simpl.
    rewrite !fromisoformat_isoformat by assumption; reflexivity.
Qed.

Lemma insert_then_get_messages_witness :
  readable Sample.db_mixed = true /\ has_key Sample.db_mixed (u "m3") = false
  /\ valid_datetime Sample.ts_utc = true /\ valid_datetime Sample.now2 = true
  /\ len Sample.db_mixed < 50
  /\ exists messages,
       get_messages
         (fst (insert_message Sample.db_mixed Sample.now2 (u "m3")
                 Sample.sender Sample.recipient Sample.ts_utc None))
         50 0 None None None
       = Ok (messages, len Sample.db_mixed + 1)
       /\ In (Message.mk (u "m3") Sample.sender Sample.recipient Sample.ts_utc
                None Sample.now2) messages.
Proof.
  repeat (split; [reflexivity|]).
  apply insert_then_get_messages; reflexivity.
Defined.

(** ** Pages *)

Lemma firstn_add {A} (a b : nat) (l : list A) :
  firstn (a + b) l = firstn a l ++ firstn b (skipn a l).
Proof.
  revert l; induction a as [|a IH]; intros l; [reflexivity|].
  destruct l as [|x l]; simpl; [destruct b; reflexivity | rewrite IH; reflexivity].
Qed.

Lemma skipn_add {A} (o a : nat) (l : list A) :
  skipn (o + a) l = skipn a (skipn o l).
Proof.
  revert l; induction o as [|o IH]; intros l; [reflexivity|].
  destruct l as [|x l]; simpl; [destruct a; reflexivity | apply IH].
Qed.

Lemma limit_offset_tile {A} (a b o : Z) (l : list A) :
  0 <= a -> 0 <= b -> 0 <= o ->
  Sqlite.limit_offset (a + b) o l
  = Sqlite.limit_offset a o l ++ Sqlite.limit_offset b (o + a) l.
Proof.
  intros Ha Hb Ho; unfold Sqlite.limit_offset.
  replace (a + b <? 0) with false by lia.
  replace (a <? 0) with false by lia.
  replace (b <? 0) with false by lia.
  rewrite !Z2Nat.inj_add, firstn_add, skipn_add by lia. reflexivity.
Qed.

Lemma traverse_app {A B} (f : A -> result string B) (l1 l2 : list A)
    (m1 m2 : list B) :
  traverse f l1 = Ok m1 -> traverse f l2 = Ok m2 ->
  traverse f (l1 ++ l2) = Ok (m1 ++ m2).
Proof.
  revert m1; induction l1 as [|x l1 IH]; simpl; intros m1 H1 H2.
  - injection H1 as <-; exact H2.
  - destruct (f x); [|discriminate].
    destruct (traverse f l1) as [ys|]; [|discriminate].
    injection H1 as <-. rewrite (IH ys eq_refl H2). reflexivity.
Qed.




Lemma traverse_message_ids (rows : list Row.t) (ms : list Message.t) :
  traverse row_to_message rows = Ok ms ->
  map Message.message_id ms = map Row.message_id rows.
Proof.
  intros H; apply traverse_Forall2 in H.
  induction H as [|r m rows ms Hrm _ IH]; simpl; [reflexivity|].
  rewrite IH. f_equal. unfold row_to_message in Hrm.
  destruct (parse_ts (Row.ts r)), (parse_ts (Row.created_at r));
    try discriminate.
  injection Hrm as <-; reflexivity.
Qed.

Lemma NoDup_filter_map {A B} (g : A -> B) (p : A -> bool) (l : list A) :
  NoDup (map g l) -> NoDup (map g (filter p l)).
Proof.
  induction l as [|x l IH]; simpl; intros H; [constructor|].
  inversion H as [|? ? Hnot Hnd]; subst.
  destruct (p x); simpl; [constructor|]; auto.
  intros Hin; apply Hnot. apply in_map_iff in Hin as (y & Hy & Hin).
  apply filter_In in Hin as [Hin _]. rewrite <- Hy; apply in_map; exact Hin.
Qed.

Lemma NoDup_limit_offset {A} (limit offset : Z) (l : list A) :
  NoDup l -> NoDup (Sqlite.limit_offset limit offset l).
Proof.
  intros H; unfold Sqlite.limit_offset.
  assert (Hs : NoDup (skipn (Z.to_nat offset) l)).
  { rewrite <- (firstn_skipn (Z.to_nat offset) l) in H.
    apply NoDup_app_remove_l in H; exact H. }
  destruct (limit <? 0); [exact Hs|].
  rewrite <- (firstn_skipn (Z.to_nat limit) (skipn _ l)) in Hs.
  apply NoDup_app_remove_r in Hs; exact Hs.
Qed.

Lemma limit_offset_map {A B} (g : A -> B) (limit offset : Z) (l : list A) :
  map g (Sqlite.limit_offset limit offset l)
  = Sqlite.limit_offset limit offset (map g l).
Proof.
  unfold Sqlite.limit_offset.
  destruct (limit <? 0); rewrite skipn_map, ?firstn_map; reflexivity.
Qed.

(** X5: while [message_id]s are unique in the table, no message occurs twice
    in a page, and two pages that do not overlap share no message. *)
Theorem get_messages_no_repeat (db : table) (a b offset : Z) (f : option str)
    (s : option datetime) (q : option str) (first second : list Message.t)
    (t1 t2 : Z) :
  unique_keys db -> 0 <= a -> 0 <= b -> 0 <= offset ->
  get_messages db a offset f s q = Ok (first, t1) ->
  get_messages db b (offset + a) f s q = Ok (second, t2) ->
  NoDup (map Message.message_id (first ++ second)).
Proof.
  intros U Ha Hb Ho H1 H2. unfold get_messages in H1, H2.
  destruct (traverse row_to_message (select_page db a offset f s q))
    as [m1|] eqn:E1; [|discriminate].
  destruct (traverse row_to_message (select_page db b (offset + a) f s q))
    as [m2|] eqn:E2; [|discriminate].
  injection H1 as <- _; injection H2 as <- _.
  pose proof (traverse_app _ _ _ _ _ E1 E2) as E.
  unfold select_page in E. rewrite <- limit_offset_tile in E by assumption.
  rewrite (traverse_message_ids _ _ E), limit_offset_map.
  apply NoDup_limit_offset.
  eapply Permutation_NoDup;
    [apply Permutation_map, order_by_perm | ].
  unfold matching; apply NoDup_filter_map; exact U.
Qed.

Lemma get_messages_no_repeat_witness :
  exists first second t1 t2,
    unique_keys Sample.db_mixed /\ 0 <= 1 /\ 0 <= 1 /\ 0 <= 0
    /\ get_messages Sample.db_mixed 1 0 None None None = Ok (first, t1)
    /\ get_messages Sample.db_mixed 1 (0 + 1) None None None = Ok (second, t2)
    /\ NoDup (map Message.message_id (first ++ second)).
Proof.
  assert (U : unique_keys Sample.db_mixed).
  { apply (unique_keys_insert_message _ Sample.now2 (u "m2") Sample.sender
             Sample.recipient Sample.ts_minus5 None).
    apply (unique_keys_insert_message [] Sample.now1 (u "m1") Sample.sender
             Sample.recipient Sample.ts_utc (Some (u "first"))).
    constructor. }
  eexists _, _, _, _.
  split; [exact U|]. split; [lia|]. split; [lia|]. split; [lia|].
  split; [vm_compute; reflexivity|]. split; [vm_compute; reflexivity|].
  eapply (get_messages_no_repeat Sample.db_mixed 1 1 0 None None None);
    [exact U | lia | lia | lia | vm_compute; reflexivity | vm_compute; reflexivity].
Defined.

(** X6: a page that starts at 0 and is long enough holds every matching row
    exactly once: the ids it returns are a permutation of the ids of the rows
    the filter keeps. *)
Theorem get_messages_complete (db : table) (limit : Z) (f : option str)
    (s : option datetime) (q : option str) (messages : list Message.t)
    (total : Z) :
  get_messages db limit 0 f s q = Ok (messages, total) -> total <= limit ->
  Permutation (map Message.message_id messages)
              (map Row.message_id (matching db f s q)).
Proof.
  unfold get_messages, select_page; intros H L.
  destruct (traverse row_to_message _) as [ms|] eqn:E; [|discriminate].
  injection H as <- <-.
  rewrite limit_offset_all in E
    by (unfold len in *; rewrite order_by_length; exact L).
  rewrite (traverse_message_ids _ _ E).
  symmetry; apply Permutation_map, order_by_perm.
Qed.

Lemma get_messages_complete_witness :
  exists messages total,
    get_messages Sample.db_mixed 50 0 None None None = Ok (messages, total)
    /\ total <= 50
    /\ Permutation (map Message.message_id messages)
         (map Row.message_id (matching Sample.db_mixed None None None)).
Proof.
  eexists _, _.
  split; [vm_compute; reflexivity|]. split; [lia|].
  eapply (get_messages_complete Sample.db_mixed 50 None None None);
    [vm_compute; reflexivity | lia].
Defined.

(** ** Filters *)

(** What each filter asks of a row. *)
Lemma matching_In (db : table) (f : option str) (s : option datetime)
    (q : option str) (r : Row.t) :
  In r (matching db f s q)
  <-> In r db
      /\ match f with
         | Some v => v = [] \/ Row.from_msisdn r = v
         | None => True
         end
      /\ match s with
         | Some d => str_leb (isoformat d) (Row.ts r) = true
         | None => True
         end
      /\ match q with
         | Some v =>
             v = [] \/ exists t, Row.text r = Some t
                                 /\ Sqlite.like ([37] ++ v ++ [37]) t = true
         | None => True
         end.
Proof.
  unfold matching. rewrite filter_In, is_true_where_sql.
  unfold where_clauses. rewrite !forallb_app, !andb_true_iff.
  assert (Hf : forallb (fun c => Sqlite.is_true (c r))
                 match f with
                 | Some v =>
                     if truthy v
                     then [fun r => Some (str_eqb (Row.from_msisdn r) v)]
                     else []
                 | None => []
                 end = true
               <-> match f with
                   | Some v => v = [] \/ Row.from_msisdn r = v
                   | None => True
                   end).
  { destruct f as [[|c v]|]; simpl; try tauto.
    rewrite andb_true_r.
    destruct (str_eqb (Row.from_msisdn r) (c :: v)) eqn:E.
    - apply str_eqb_eq in E; tauto.
    - apply str_eqb_neq in E. split; [discriminate|].
      intros [H|H]; [discriminate | contradiction]. }
  assert (Hs : forallb (fun c => Sqlite.is_true (c r))
                 match s with
                 | Some d => [fun r => Some (str_leb (isoformat d) (Row.ts r))]
                 | None => []
                 end = true
               <-> match s with
                   | Some d => str_leb (isoformat d) (Row.ts r) = true
                   | None => True
                   end).
  { destruct s as [d|]; simpl; [|tauto].
    rewrite andb_true_r. destruct (str_leb (isoformat d) (Row.ts r)); tauto. }
  assert (Hq : forallb (fun c => Sqlite.is_true (c r))
                 match q with
                 | Some v =>
                     if truthy v
                     then [fun r => Sqlite.like_null ([37] ++ v ++ [37])
                                      (Row.text r)]
                     else []
                 | None => []
                 end = true
               <-> match q with
                   | Some v =>
                       v = [] \/ exists t, Row.text r = Some t
                                 /\ Sqlite.like ([37] ++ v ++ [37]) t = true
                   | None => True
                   end).
  { destruct q as [[|c v]|]; cbn [truthy forallb]; try tauto.
    rewrite andb_true_r. unfold Sqlite.like_null.
    destruct (Row.text r) as [t|]; cbn [Sqlite.is_true].
    - destruct (Sqlite.like ([37] ++ (c :: v) ++ [37]) t) eqn:E.
      + split; [intros _; right; eauto | reflexivity].
      + split; [discriminate|].
        intros [H|(t' & H1 & H2)]; [discriminate|].
        injection H1 as <-; congruence.
    - split; [discriminate|].
      intros [H|(t' & H1 & _)]; discriminate. }
  rewrite Hf, Hs, Hq. tauto.
Qed.

(** X7: the filters combine with AND: a row matches [from], [since] and [q]
    together exactly when it matches each of them alone. *)
Theorem matching_conjunction (db : table) (f : option str)
    (s : option datetime) (q : option str) (r : Row.t) :
  In r (matching db f s q)
  <-> In r (matching db f None None) /\ In r (matching db None s None)
      /\ In r (matching db None None q).
Proof. rewrite !matching_In. tauto. Qed.

(** X8: with a non-empty sender filter and no other filter, [get_messages]
    returns only messages of that sender, and the total is the number of
    rows of that sender. *)
Theorem get_messages_from_exact (db : table) (limit offset : Z) (f : str)
    (messages : list Message.t) (total : Z) :
  f <> [] ->
  get_messages db limit offset (Some f) None None = Ok (messages, total) ->
  Forall (fun m => Message.from_ m = f) messages
  /\ total = count_from db f.
Proof.
  intros Hf H. unfold get_messages in H.
  destruct (traverse row_to_message _) as [ms|] eqn:E; [|discriminate].
  injection H as <- <-. split.
  - apply traverse_Forall2 in E. apply Forall_forall; intros m Hm.
    destruct (Forall2_In_r _ _ _ m E Hm) as (r & Hr & Hrm).
    apply select_page_incl, matching_In in Hr.
    destruct Hr as (_ & [Hr|Hr] & _); [contradiction|].
    unfold row_to_message in Hrm.
    destruct (parse_ts (Row.ts r)), (parse_ts (Row.created_at r));
      try discriminate.
    injection Hrm as <-; exact Hr.
  - unfold count_from, matching.
    rewrite (filter_ext _ (fun r => str_eqb (Row.from_msisdn r) f));
      [reflexivity|].
    destruct f as [|c f]; [congruence|]. intros r.
    rewrite is_true_where_sql; simpl. rewrite andb_true_r.
    destruct (str_eqb (Row.from_msisdn r) (c :: f)); reflexivity.
Qed.

Lemma get_messages_from_exact_witness :
  exists messages total,
    Sample.sender <> []
    /\ get_messages Sample.db_mixed 50 0 (Some Sample.sender) None None
       = Ok (messages, total)
    /\ Forall (fun m => Message.from_ m = Sample.sender) messages
    /\ total = count_from Sample.db_mixed Sample.sender.
Proof.
  assert (H : Sample.sender <> []) by (vm_compute; discriminate).
  eexists _, _. split; [exact H|]. split; [vm_compute; reflexivity|].
  eapply (get_messages_from_exact Sample.db_mixed 50 0);
    [exact H | vm_compute; reflexivity].
Defined.

(** X9: while every stored timestamp and the bound carry the same UTC
    offset, [since] is an inclusive lower bound on the instant: a stored row
    matches exactly when its timestamp is not before the bound. *)
Theorem matching_since_same_offset (db : table) (since d : datetime)
    (r : Row.t) :
  valid_datetime since = true -> valid_datetime d = true ->
  tzinfo d = tzinfo since -> In r db -> Row.ts r = isoformat d ->
  (In r (matching db None (Some since) None)
   <-> utc_micros since <= utc_micros d).
Proof.
  intros Vs Vd T Hin E.
  rewrite matching_In, E. unfold str_leb.
  rewrite isoformat_compare_instant by congruence.
  destruct (Z.compare_spec (utc_micros since) (utc_micros d)); split;
    try tauto; try lia.
Qed.

Lemma matching_since_same_offset_witness :
  let r := Row.mk (u "m1") Sample.sender Sample.recipient
             (isoformat Sample.ts_utc) (Some (u "first"))
             (isoformat Sample.now1) in
  valid_datetime Sample.ts_utc = true /\ valid_datetime Sample.ts_utc = true
  /\ tzinfo Sample.ts_utc = tzinfo Sample.ts_utc /\ In r Sample.db_mixed
  /\ Row.ts r = isoformat Sample.ts_utc
  /\ (In r (matching Sample.db_mixed None (Some Sample.ts_utc) None)
      <-> utc_micros Sample.ts_utc <= utc_micros Sample.ts_utc).
Proof.
  assert (Hin : In (Row.mk (u "m1") Sample.sender Sample.recipient
                      (isoformat Sample.ts_utc) (Some (u "first"))
                      (isoformat Sample.now1)) Sample.db_mixed)
    by (vm_compute; auto).
  repeat (split; [reflexivity|]). split; [exact Hin|].
  split; [reflexivity|].
  apply matching_since_same_offset; try reflexivity. exact Hin.
Defined.

(** ** Text search *)















(** ** Statistics of the whole table *)

Lemma StronglySorted_map {A B} (g : A -> B) (R : B -> B -> Prop) (l : list A) :
  StronglySorted (fun a b => R (g a) (g b)) l -> StronglySorted R (map g l).
Proof.
  induction 1 as [|x l _ IH Hall]; simpl; constructor; auto.
  apply Forall_forall; intros y Hy. apply in_map_iff in Hy as (z & <- & Hz).
  rewrite Forall_forall in Hall; auto.
Qed.

Lemma count_from_pos (db : table) (s : str) :
  In s (map Row.from_msisdn db) -> 1 <= count_from db s.
Proof.
  intros H; apply in_map_iff in H as (r & <- & Hr).
  unfold count_from, len.
  assert (In r (filter (fun r' => str_eqb (Row.from_msisdn r')
                                    (Row.from_msisdn r)) db))
    by (apply filter_In; auto using str_eqb_refl).
  destruct (filter _ db); [contradiction | simpl; lia].
Qed.

(** X12: [messages_per_sender] has at most ten entries, ordered by count
    descending and then by sender ascending; each entry is a sender of the
    table with its number of rows, and a sender left out ranks after every
    sender listed. *)
Theorem get_stats_per_sender (db : table) (st : StatsResponse.t) :
  get_stats db = Ok st ->
  let listed := StatsResponse.messages_per_sender st in
  len listed <= 10
  /\ StronglySorted ranks_before listed
  /\ (forall g, In g listed ->
        In (SenderStats.from_ g) (map Row.from_msisdn db)
        /\ SenderStats.count g = count_from db (SenderStats.from_ g)
        /\ 1 <= SenderStats.count g)
  /\ (forall s g, In s (map Row.from_msisdn db) ->
        ~ In s (map SenderStats.from_ listed) -> In g listed ->
        ranks_before g (SenderStats.mk s (count_from db s))).
Proof.
  unfold get_stats; intros H.
  destruct (ts_of_aggregate (Sqlite.agg Sqlite.str_min (map Row.ts db))),
    (ts_of_aggregate (Sqlite.agg Sqlite.str_max (map Row.ts db)));
    try discriminate.
  injection H as <-; simpl.
  split; [|split; [|split]].
  - unfold len; rewrite length_map. apply top_senders_at_most_10.
  - apply StronglySorted_map. unfold ranks_before; simpl.
    eapply StronglySorted_Forall2 with (F := eq) (l := top_senders db);
      [| apply top_senders_sorted | ].
    + intros x x' y y' _ _ Hle <- <-.
      destruct x, x'; exact Hle.
    + clear; induction (top_senders db); constructor; auto.
  - intros g Hg. apply in_map_iff in Hg as (p & <- & Hp); simpl.
    destruct (top_senders_counts db p Hp) as [Hin Hc].
    repeat split; auto. rewrite Hc; apply count_from_pos; exact Hin.
  - intros s g Hs Hnot Hg.
    apply in_map_iff in Hg as (p & <- & Hp).
    unfold ranks_before; simpl.
    replace (fst p, snd p) with p by (destruct p; reflexivity).
    apply (top_senders_top db p (s, count_from db s) Hp).
    + unfold group_by_sender.
      apply in_map_iff; exists s; split; [reflexivity|].
      apply distinct_In; exact Hs.
    + intros Hin; apply Hnot.
      rewrite map_map; simpl.
      apply in_map_iff; exists (s, count_from db s); auto.
Qed.

Lemma get_stats_per_sender_witness :
  exists st,
    get_stats Sample.db_mixed = Ok st
    /\ let listed := StatsResponse.messages_per_sender st in
       len listed <= 10
       /\ StronglySorted ranks_before listed
       /\ (forall g, In g listed ->
             In (SenderStats.from_ g) (map Row.from_msisdn Sample.db_mixed)
             /\ SenderStats.count g
                = count_from Sample.db_mixed (SenderStats.from_ g)
             /\ 1 <= SenderStats.count g)
       /\ (forall s g, In s (map Row.from_msisdn Sample.db_mixed) ->
             ~ In s (map SenderStats.from_ listed) -> In g listed ->
             ranks_before g (SenderStats.mk s (count_from Sample.db_mixed s))).
Proof.
  eexists. split; [vm_compute; reflexivity|].
  apply (get_stats_per_sender Sample.db_mixed). vm_compute; reflexivity.
Defined.

Lemma count_from_cons (r : Row.t) (db : table) (s : str) :
  count_from (r :: db) s
  = (if str_eqb (Row.from_msisdn r) s then 1 else 0) + count_from db s.
Proof.
  unfold count_from, len; cbn [filter].
  destruct (str_eqb (Row.from_msisdn r) s); cbn [List.length]; lia.
Qed.

Lemma sum_indicator (s : str) (l : list str) :
  NoDup l ->
  fold_right (fun x acc => (if str_eqb s x then 1 else 0) + acc) 0 l
  = if existsb (str_eqb s) l then 1 else 0.
Proof.
  induction 1 as [|x l Hnot _ IH]; simpl; [reflexivity|].
  rewrite IH. destruct (str_eqb s x) eqn:E; simpl; [|reflexivity].
  apply str_eqb_eq in E; subst.
  destruct (existsb (str_eqb x) l) eqn:E'; [|reflexivity].
  apply existsb_exists in E' as (y & Hy & Ey).
  apply str_eqb_eq in Ey; subst; contradiction.
Qed.

Lemma sum_count_from (l : list str) (db : table) :
  NoDup l -> (forall r, In r db -> In (Row.from_msisdn r) l) ->
  fold_right (fun s acc => count_from db s + acc) 0 l = len db.
Proof.
  intros N; induction db as [|r db IH]; intros H.
  - clear N H; induction l as [|s l IHl]; [reflexivity|].
    cbn [fold_right]; rewrite IHl; reflexivity.
  - assert (Hsplit : fold_right (fun s acc => count_from (r :: db) s + acc) 0 l
              = fold_right (fun x acc =>
                   (if str_eqb (Row.from_msisdn r) x then 1 else 0) + acc) 0 l
                + fold_right (fun s acc => count_from db s + acc) 0 l).
    { clear; induction l as [|s l IHl]; simpl; [reflexivity|].
      rewrite IHl, count_from_cons; lia. }
    rewrite Hsplit, IH, sum_indicator by (auto; intros; apply H; simpl; auto).
    assert (existsb (str_eqb (Row.from_msisdn r)) l = true) as ->.
    { apply existsb_exists; exists (Row.from_msisdn r).
      split; [apply H; simpl; auto | apply str_eqb_refl]. }
    unfold len; cbn [List.length]; lia.
Qed.

Lemma sum_counts_map (l : list (str * Z)) :
  sum_counts (map (fun g => SenderStats.mk (fst g) (snd g)) l)
  = fold_right (fun g acc => snd g + acc) 0 l.
Proof. induction l; simpl; congruence. Qed.

Lemma sum_snd_perm (l l' : list (str * Z)) :
  Permutation l l' ->
  fold_right (fun g acc => snd g + acc) 0 l
  = fold_right (fun g acc => snd g + acc) 0 l'.
Proof. induction 1; simpl; lia. Qed.

Lemma sum_groups (db : table) :
  fold_right (fun g acc => snd g + acc) 0 (group_by_sender db) = len db.
Proof.
  unfold group_by_sender.
  rewrite <- (sum_count_from (distinct (map Row.from_msisdn db)) db).
  - induction (distinct (map Row.from_msisdn db)); simpl; congruence.
  - apply distinct_NoDup.
  - intros r Hr; apply distinct_In, in_map; exact Hr.
Qed.

Lemma sum_snd_nonneg (l : list (str * Z)) :
  Forall (fun g => 0 <= snd g) l ->
  0 <= fold_right (fun g acc => snd g + acc) 0 l.
Proof. induction 1; simpl; lia. Qed.

Lemma sum_firstn_le (n : nat) (l : list (str * Z)) :
  Forall (fun g => 0 <= snd g) l ->
  fold_right (fun g acc => snd g + acc) 0 (firstn n l)
  <= fold_right (fun g acc => snd g + acc) 0 l.
Proof.
  intros H; revert n; induction H as [|g l Hg Hl IH]; intros [|n]; simpl;
    try lia.
  - pose proof (sum_snd_nonneg l Hl); lia.
  - specialize (IH n); lia.
Qed.

(** X13: the figures of [get_stats] agree with each other:
    [total_messages] is the number of rows, [senders_count] the number of
    distinct senders, [messages_per_sender] lists [min 10 senders_count]
    of them, and its counts add up to at most [total_messages], to exactly
    [total_messages] when there are at most ten senders. *)
Theorem get_stats_consistent (db : table) (st : StatsResponse.t) :
  get_stats db = Ok st ->
  StatsResponse.total_messages st = len db
  /\ StatsResponse.senders_count st = len (distinct (map Row.from_msisdn db))
  /\ len (StatsResponse.messages_per_sender st)
     = Z.min 10 (StatsResponse.senders_count st)
  /\ sum_counts (StatsResponse.messages_per_sender st)
     <= StatsResponse.total_messages st
  /\ (StatsResponse.senders_count st <= 10 ->
      sum_counts (StatsResponse.messages_per_sender st)
      = StatsResponse.total_messages st).
Proof.
  unfold get_stats; intros H.
  destruct (ts_of_aggregate (Sqlite.agg Sqlite.str_min (map Row.ts db))),
    (ts_of_aggregate (Sqlite.agg Sqlite.str_max (map Row.ts db)));
    try discriminate.
  injection H as <-; simpl.
  rewrite sum_counts_map, top_senders_firstn.
  set (sorted := Sqlite.order_by count_from_leb (group_by_sender db)).
  assert (Hlen : List.length sorted
                 = List.length (distinct (map Row.from_msisdn db))).
  { unfold sorted, group_by_sender. rewrite order_by_length, length_map.
    reflexivity. }
  assert (Hsum : fold_right (fun g acc => snd g + acc) 0 sorted = len db).
  { rewrite <- sum_groups. symmetry; apply sum_snd_perm, order_by_perm. }
  assert (Hpos : Forall (fun g => 0 <= snd g) sorted).
  { apply Forall_forall; intros g Hg.
    apply (proj1 (order_by_In count_from_leb _ _)) in Hg.
    unfold group_by_sender in Hg. apply in_map_iff in Hg as (s & <- & _).
    unfold count_from, len; simpl; lia. }
  split; [reflexivity|]. split; [reflexivity|]. split; [|split].
  - unfold len; rewrite length_map, length_firstn, Hlen. lia.
  - rewrite <- Hsum. apply sum_firstn_le; exact Hpos.
  - intros Hten. rewrite firstn_all2 by (unfold len in Hten; lia). exact Hsum.
Qed.

Lemma get_stats_consistent_witness :
  exists st,
    get_stats Sample.db_mixed = Ok st
    /\ StatsResponse.total_messages st = len Sample.db_mixed
    /\ StatsResponse.senders_count st
       = len (distinct (map Row.from_msisdn Sample.db_mixed))
    /\ len (StatsResponse.messages_per_sender st)
       = Z.min 10 (StatsResponse.senders_count st)
    /\ sum_counts (StatsResponse.messages_per_sender st)
       <= StatsResponse.total_messages st
    /\ (StatsResponse.senders_count st <= 10 ->
        sum_counts (StatsResponse.messages_per_sender st)
        = StatsResponse.total_messages st).
Proof.
  eexists. split; [vm_compute; reflexivity|].
  apply (get_stats_consistent Sample.db_mixed). vm_compute; reflexivity.
Defined.

Lemma fromisoformat_nil : fromisoformat [] = None.
Proof. reflexivity. Qed.

Lemma ts_of_aggregate_readable (db : table) (v : str) :
  readable db = true -> In v (map Row.ts db) ->
  exists d, ts_of_aggregate (Some v) = Ok (Some d).
Proof.
  intros R Hin. apply in_map_iff in Hin as (r & <- & Hr).
  unfold readable in R; rewrite forallb_forall in R.
  specialize (R r Hr). unfold row_readable, row_to_message, parse_ts in R.
  unfold ts_of_aggregate, parse_ts.
  destruct (fromisoformat (Row.ts r)) as [d|] eqn:E; [|discriminate].
  destruct (Row.ts r); [discriminate | simpl; eauto].
Qed.

(** X14: on a table whose rows can be read back, [get_stats] returns, and
    [first_message_ts] and [last_message_ts] are null exactly when the table
    is empty, that is when [total_messages] is 0. *)
Theorem get_stats_returns (db : table) :
  readable db = true ->
  exists st,
    get_stats db = Ok st
    /\ (StatsResponse.first_message_ts st = None <-> db = [])
    /\ (StatsResponse.last_message_ts st = None <-> db = [])
    /\ (StatsResponse.total_messages st = 0 <-> db = []).
Proof.
  intros R. unfold get_stats.
  assert (Hz : len db = 0 <-> db = [])
    by (unfold len; destruct db; simpl; split; (congruence || lia)).
  pose proof (agg_min_max (map Row.ts db)) as MM.
  destruct (Sqlite.agg Sqlite.str_min (map Row.ts db)) as [lo|],
    (Sqlite.agg Sqlite.str_max (map Row.ts db)) as [hi|]; try contradiction.
  - destruct MM as (Hlo & Hhi & _).
    destruct (ts_of_aggregate_readable db lo R Hlo) as [dlo ->].
    destruct (ts_of_aggregate_readable db hi R Hhi) as [dhi ->].
    eexists; split; [reflexivity|]. simpl.
    assert (db <> []) by (intros ->; contradiction).
    repeat split; try discriminate; try contradiction; tauto.
  - apply map_eq_nil in MM; subst.
    eexists; split; [reflexivity|]. simpl; tauto.
Qed.

Lemma get_stats_returns_witness :
  readable Sample.db_mixed = true
  /\ exists st,
       get_stats Sample.db_mixed = Ok st
       /\ (StatsResponse.first_message_ts st = None <-> Sample.db_mixed = [])
       /\ (StatsResponse.last_message_ts st = None <-> Sample.db_mixed = [])
       /\ (StatsResponse.total_messages st = 0 <-> Sample.db_mixed = []).
Proof.
  split; [reflexivity | apply get_stats_returns; reflexivity].
Defined.

(** ** Order of the messages returned *)

(** X15: the messages [get_messages] returns come in the order of the
    ISO-8601 text of their [ts], then of their [message_id], whatever the
    UTC offsets of the stored timestamps. *)
Theorem get_messages_sorted_by_text (db : table) (limit offset : Z)
    (f : option str) (s : option datetime) (q : option str)
    (messages : list Message.t) (total : Z) :
  Forall (fun r => exists tz, written_with tz r) db ->
  get_messages db limit offset f s q = Ok (messages, total) ->
  StronglySorted (fun a b => message_key_leb a b = true) messages.
Proof.
  intros W H. unfold get_messages in H.
  destruct (traverse row_to_message _) as [ms|] eqn:E; [|discriminate].
  injection H as <- _. apply traverse_Forall2 in E.
  eapply StronglySorted_Forall2; [|apply select_page_sorted|exact E].
  intros r r' m m' Hr Hr' Hle Hm Hm'.
  rewrite Forall_forall in W.
  apply select_page_incl, matching_incl in Hr, Hr'.
  destruct (W r Hr) as [tz Wr]. destruct (W r' Hr') as [tz' Wr'].
  destruct (row_to_message_written tz r m Wr Hm) as (_ & _ & E1 & I).
  destruct (row_to_message_written tz' r' m' Wr' Hm') as (_ & _ & E1' & I').
  unfold message_key_leb. unfold ts_id_leb in Hle.
  rewrite E1, E1', I, I' in *. exact Hle.
Qed.

Lemma mixed_rows_written :
  Forall (fun r => exists tz, written_with tz r) Sample.db_mixed.
Proof.
  repeat constructor.
  - exists (Some 0), Sample.ts_utc; repeat split.
  - exists (Some (-18000)), Sample.ts_minus5; repeat split.
Qed.

Lemma utc_rows_written : Forall (written_with (Some 0)) Sample.db_utc.
Proof.
  repeat constructor.
  - exists Sample.ts_utc_later; repeat split.
  - exists Sample.ts_utc; repeat split.
Qed.

Lemma get_messages_sorted_by_text_witness :
  exists messages total,
    Forall (fun r => exists tz, written_with tz r) Sample.db_mixed
    /\ get_messages Sample.db_mixed 50 0 None None None = Ok (messages, total)
    /\ StronglySorted (fun a b => message_key_leb a b = true) messages.
Proof.
  eexists _, _. split; [exact mixed_rows_written|].
  split; [vm_compute; reflexivity|].
  eapply (get_messages_sorted_by_text Sample.db_mixed 50 0 None None None);
    [exact mixed_rows_written | vm_compute; reflexivity].
Defined.

Lemma get_messages_oldest_first_same_offset_witness :
  exists messages total,
    Forall (written_with (Some 0)) Sample.db_utc
    /\ get_messages Sample.db_utc 50 0 None None None = Ok (messages, total)
    /\ StronglySorted oldest_first messages.
Proof.
  eexists _, _. split; [exact utc_rows_written|].
  split; [vm_compute; reflexivity|].
  eapply (get_messages_oldest_first_same_offset (Some 0) Sample.db_utc 50 0
            None None None);
    [exact utc_rows_written | vm_compute; reflexivity].
Defined.

Lemma get_stats_first_last_same_offset_witness :
  let r := Row.mk (u "m2") Sample.sender Sample.recipient
             (isoformat Sample.ts_utc) None (isoformat Sample.now2) in
  exists st,
    Forall (written_with (Some 0)) Sample.db_utc
    /\ get_stats Sample.db_utc = Ok st
    /\ In r Sample.db_utc /\ valid_datetime Sample.ts_utc = true
    /\ tzinfo Sample.ts_utc = Some 0 /\ Row.ts r = isoformat Sample.ts_utc
    /\ exists lo hi,
         StatsResponse.first_message_ts st = Some lo
         /\ StatsResponse.last_message_ts st = Some hi
         /\ utc_micros lo <= utc_micros Sample.ts_utc <= utc_micros hi.
Proof.
  assert (Hin : In (Row.mk (u "m2") Sample.sender Sample.recipient
                      (isoformat Sample.ts_utc) None (isoformat Sample.now2))
                   Sample.db_utc)
    by (vm_compute; auto).
  eexists. split; [exact utc_rows_written|].
  split; [vm_compute; reflexivity|]. split; [exact Hin|].
  repeat (split; [reflexivity|]).
  eapply (get_stats_first_last_same_offset (Some 0) Sample.db_utc);
    [exact utc_rows_written | vm_compute; reflexivity | exact Hin
     | reflexivity | reflexivity | reflexivity].
Defined.

(** ** Normalisation and validation of the payload *)

Lemma lstrip_split (s : str) :
  exists w, s = w ++ lstrip s /\ forallb isspace w = true.
Proof.
  induction s as [|c s (w & Hw & Hsp)]; [exists []; auto|].
  simpl. destruct (isspace c) eqn:E.
  - exists (c :: w); simpl; rewrite E, Hsp; split; [congruence | reflexivity].
  - exists []; auto.
Qed.

Lemma lstrip_head (s : str) (c : Z) (t : str) :
  lstrip s = c :: t -> isspace c = false.
Proof.
  induction s as [|x s IH]; simpl; [discriminate|].
  destruct (isspace x) eqn:E; [exact IH|].
  intros H; injection H as <- _; exact E.
Qed.

Lemma lstrip_fixed (c : Z) (t : str) :
  isspace c = false -> lstrip (c :: t) = c :: t.
Proof. intros H; simpl; rewrite H; reflexivity. Qed.

Lemma strip_shape (s : str) :
  strip s = []
  \/ exists c t, strip s = c :: t /\ isspace c = false
                 /\ exists c' t', rev (strip s) = c' :: t' /\ isspace c' = false.
Proof.
  unfold strip, rstrip. set (a := lstrip s).
  destruct (lstrip_split (rev a)) as (w & Hw & Hsp).
  destruct (lstrip (rev a)) as [|c' t'] eqn:E; [left; reflexivity|].
  right. pose proof (lstrip_head _ _ _ E) as Hc'.
  assert (Ha : a = rev (c' :: t') ++ rev w).
  { rewrite <- rev_app_distr, <- Hw, rev_involutive; reflexivity. }
  destruct (rev (c' :: t')) as [|c t] eqn:Er.
  - apply (f_equal (@List.length Z)) in Er.
    rewrite length_rev in Er; discriminate.
  - exists c, t. split; [reflexivity|]. split.
    + unfold a in Ha. simpl in Ha. apply (lstrip_head s c (t ++ rev w)); exact Ha.
    + exists c', t'. split; [|exact Hc'].
      rewrite <- Er, rev_involutive; reflexivity.
Qed.

Lemma strip_idempotent (s : str) : strip (strip s) = strip s.
Proof.
  destruct (strip_shape s) as [->|(c & t & E & Hc & c' & t' & Er & Hc')];
    [reflexivity|].
  rewrite E in *. unfold strip at 1, rstrip.
  rewrite (lstrip_fixed c t Hc), Er, (lstrip_fixed c' t' Hc'), <- Er.
  apply rev_involutive.
Qed.

(** X16: the [message_id] the validator yields is not empty, neither starts
    nor ends with whitespace, and is a fixed point: validating it again
    yields it unchanged. *)
Theorem validate_message_id_normal (v v' : str) :
  validate_message_id v = Ok v' ->
  v' <> []
  /\ (forall c t, v' = c :: t -> isspace c = false)
  /\ (forall c t, v' = t ++ [c] -> isspace c = false)
  /\ validate_message_id v' = Ok v'.
Proof.
  intros H. apply validate_message_id_ok in H as [-> Hne].
  destruct (strip_shape v) as [E|(c & t & E & Hc & c' & t' & Er & Hc')];
    [contradiction|].
  split; [exact Hne|]. split; [|split].
  - intros c0 t0 E0. rewrite E in E0; injection E0 as <- _; exact Hc.
  - intros c0 t0 E0. rewrite E0, rev_app_distr in Er.
    injection Er as <- _; exact Hc'.
  - apply validate_message_id_ok. rewrite strip_idempotent; auto.
Qed.

Lemma validate_message_id_normal_witness :
  validate_message_id (u "  m 1 ") = Ok (u "m 1")
  /\ u "m 1" <> []
  /\ (forall c t, u "m 1" = c :: t -> isspace c = false)
  /\ (forall c t, u "m 1" = t ++ [c] -> isspace c = false)
  /\ validate_message_id (u "m 1") = Ok (u "m 1").
Proof.
  split; [reflexivity|].
  apply (validate_message_id_normal (u "  m 1 ")); reflexivity.
Defined.

(** X17: what [validate_e164] accepts, and how: the value is a plus sign,
    then one or more decimal digits of any script, then possibly one final
    newline; it is returned unchanged. *)
Theorem validate_e164_accepts (v v' : str) :
  validate_e164 v = Ok v'
  <-> v' = v
      /\ exists ds, ds <> [] /\ forallb Re.decimal_digit ds = true
                    /\ (v = 43 :: ds \/ v = 43 :: ds ++ [10]).
Proof. rewrite validate_e164_ok, match_e164_spec; reflexivity. Qed.

Section KnownMembers.

Variable datetime_validator : json -> option datetime.

Lemma lookup_known (key : str) (m : list (str * json)) :
  known_member key = true ->
  lookup key (filter (fun kv => known_member (fst kv)) m) = lookup key m.
Proof.
  intros K; induction m as [|[k v] m IH]; [reflexivity|]. simpl.
  destruct (known_member k) eqn:E; simpl.
  - rewrite IH; reflexivity.
  - destruct (str_eqb k key) eqn:E'; [|exact IH].
    apply str_eqb_eq in E'; congruence.
Qed.

(** X18: only the members named [message_id], [from], [from_], [to], [ts]
    and [text] count: validation gives the same payload, or the same errors,
    when every other member of the body is removed. *)
Theorem model_validate_known_members (m : list (str * json)) :
  model_validate datetime_validator
    (JObject (filter (fun kv => known_member (fst kv)) m))
  = model_validate datetime_validator (JObject m).
Proof.
  unfold model_validate, field_message_id, field_from, field_to, field_ts,
    field_text.
  rewrite !lookup_known by reflexivity. reflexivity.
Qed.

End KnownMembers.

(** ** Outcomes of the webhook endpoint *)

Lemma insert_message_has_key (db : table) (now : datetime) (id f t : str)
    (ts : datetime) (x : option str) :
  has_key (fst (insert_message db now id f t ts x)) id = true.
Proof.
  destruct (has_key db id) eqn:E.
  - rewrite insert_message_duplicate by assumption; exact E.
  - rewrite insert_message_created by assumption; simpl.
    apply has_key_In. rewrite map_app; apply in_or_app; right; simpl; auto.
Qed.

Lemma insert_message_snd (db : table) (now : datetime) (id f t : str)
    (ts : datetime) (x : option str) :
  snd (insert_message db now id f t ts x) = negb (has_key db id).
Proof.
  destruct (has_key db id) eqn:E.
  - rewrite insert_message_duplicate by assumption; reflexivity.
  - rewrite insert_message_created by assumption; reflexivity.
Qed.


Section WebhookOutcomes.

Variable datetime_validator : json -> option datetime.

(** X19: a request answered 200 passed validation and verification, and its
    message is in the table afterwards under its normalised id; it was
    appended as a new row when the id was free ([created]), and the table
    was left as it was when the id was taken ([duplicate]). *)
Theorem webhook_accepted_is_stored (cfg : Config.t) (db : table)
    (utcnow : datetime) (req : Request.t) :
  let out := webhook_endpoint datetime_validator cfg db utcnow req in
  Response.status_code (snd out) = 200 ->
  exists payload x_signature,
    request_validation datetime_validator req = Ok (payload, x_signature)
    /\ verify_signature cfg (Request.body req) x_signature = Ok true
    /\ has_key (fst out) (WebhookPayload.message_id payload) = true
    /\ (has_key db (WebhookPayload.message_id payload) = false ->
        Response.logged_result (snd out) = Some "created"%string
        /\ fst out
           = db ++ [Row.mk (WebhookPayload.message_id payload)
                      (WebhookPayload.from_ payload) (WebhookPayload.to payload)
                      (isoformat (WebhookPayload.ts payload))
                      (WebhookPayload.text payload) (isoformat utcnow)])
    /\ (has_key db (WebhookPayload.message_id payload) = true ->
        Response.logged_result (snd out) = Some "duplicate"%string
        /\ fst out = db).
Proof.
  unfold webhook_endpoint.
  destruct (request_validation datetime_validator req) as [[payload sig]|errs];
    [|discriminate].
  destruct (verify_signature cfg (Request.body req) sig) as [[|]|e] eqn:S;
    try discriminate.
  intros _. exists payload, sig.
  pose proof (insert_message_has_key db utcnow
                (WebhookPayload.message_id payload) (WebhookPayload.from_ payload)
                (WebhookPayload.to payload) (WebhookPayload.ts payload)
                (WebhookPayload.text payload)) as K.
  split; [reflexivity|]. split; [exact S|].
  destruct (has_key db (WebhookPayload.message_id payload)) eqn:E.
  - rewrite insert_message_duplicate in * by assumption. simpl in *.
    repeat split; auto; discriminate.
  - rewrite insert_message_created in * by assumption. simpl in *.
    repeat split; auto; discriminate.
Qed.

(** X20: a retry is safe: when a request was answered 200, the same request
    sent again, at any later time, is answered 200 as a duplicate and leaves
    the table as the first one left it. *)
Theorem webhook_retry (cfg : Config.t) (db : table) (t1 t2 : datetime)
    (req : Request.t) :
  let first := webhook_endpoint datetime_validator cfg db t1 req in
  Response.status_code (snd first) = 200 ->
  webhook_endpoint datetime_validator cfg (fst first) t2 req
  = (fst first, Response.mk 200 [] (Some "duplicate"%string)).
Proof.
  unfold webhook_endpoint.
  destruct (request_validation datetime_validator req) as [[payload sig]|errs];
    [|discriminate].
  destruct (verify_signature cfg (Request.body req) sig) as [[|]|e];
    try discriminate.
  intros _.
  pose proof (insert_message_has_key db t1
                (WebhookPayload.message_id payload) (WebhookPayload.from_ payload)
                (WebhookPayload.to payload) (WebhookPayload.ts payload)
                (WebhookPayload.text payload)) as K.
  destruct (insert_message db t1 _ _ _ _ _) as [db1 b]. simpl in *.
  rewrite insert_message_duplicate by exact K. reflexivity.
Qed.


Lemma model_validate_row_valid (j : json) (p : WebhookPayload.t) :
  model_validate datetime_validator j = Ok p ->
  Re.match_e164 (WebhookPayload.from_ p) = true
  /\ Re.match_e164 (WebhookPayload.to p) = true
  /\ WebhookPayload.message_id p <> []
  /\ strip (WebhookPayload.message_id p) = WebhookPayload.message_id p.
Proof.
  destruct j; try discriminate. intros H.
  apply model_validate_ok in H as (H1 & H2 & H3 & _ & _).
  apply field_message_id_ok in H1 as (v & _ & -> & Hne).
  unfold field_from in H2. apply field_e164_ok in H2 as [_ H2].
  unfold field_to in H3. apply field_e164_ok in H3 as [_ H3].
  rewrite strip_idempotent. auto.
Qed.

(** X22: what the endpoint stores is valid: when every row of the table has
    a sender and a recipient that the phone pattern matches and a non-empty
    [message_id] free of surrounding whitespace, so has every row of the
    table after any request. *)
Theorem webhook_keeps_rows_valid (cfg : Config.t) (db : table)
    (utcnow : datetime) (req : Request.t) :
  forallb row_valid db = true ->
  forallb row_valid
    (fst (webhook_endpoint datetime_validator cfg db utcnow req)) = true.
Proof.
  intros V. unfold webhook_endpoint.
  destruct (request_validation datetime_validator req) as [[payload sig]|errs] eqn:RV;
    [|exact V].
  destruct (verify_signature cfg (Request.body req) sig) as [[|]|e];
    try exact V.
  destruct (has_key db (WebhookPayload.message_id payload)) eqn:E.
  - rewrite insert_message_duplicate by assumption; exact V.
  - rewrite insert_message_created by assumption; simpl.
    rewrite forallb_app, V; simpl. rewrite andb_true_r.
    unfold request_validation in RV.
    destruct (Request.json_body req) as [j|]; [|destruct (Request.x_signature req); discriminate].
    destruct (model_validate datetime_validator j) as [p|] eqn:MV;
      [|destruct (Request.x_signature req); discriminate].
    destruct (Request.x_signature req); [|discriminate].
    injection RV as -> _.
    apply model_validate_row_valid in MV as (H1 & H2 & H3 & H4).
    unfold row_valid; simpl. rewrite H1, H2, H4, str_eqb_refl.
    destruct (WebhookPayload.message_id payload); [congruence | reflexivity].
Qed.


End WebhookOutcomes.

Lemma webhook_accepted_is_stored_witness :
  let req := Request.mk Sample.body_ok (Some Sample.json_ok)
               (Some (Hmac.hexdigest (u "testsecret") Sample.body_ok)) in
  let out := webhook_endpoint iso_datetime Sample.cfg [] Sample.now1 req in
  Response.status_code (snd out) = 200
  /\ exists payload x_signature,
       request_validation iso_datetime req = Ok (payload, x_signature)
       /\ verify_signature Sample.cfg (Request.body req) x_signature = Ok true
       /\ has_key (fst out) (WebhookPayload.message_id payload) = true
       /\ (has_key [] (WebhookPayload.message_id payload) = false ->
           Response.logged_result (snd out) = Some "created"%string
           /\ fst out
              = [] ++ [Row.mk (WebhookPayload.message_id payload)
                         (WebhookPayload.from_ payload)
                         (WebhookPayload.to payload)
                         (isoformat (WebhookPayload.ts payload))
                         (WebhookPayload.text payload)
                         (isoformat Sample.now1)])
       /\ (has_key [] (WebhookPayload.message_id payload) = true ->
           Response.logged_result (snd out) = Some "duplicate"%string
           /\ fst out = []).
Proof.
  assert (H : Response.status_code
                (snd (webhook_endpoint iso_datetime Sample.cfg [] Sample.now1
                        (Request.mk Sample.body_ok (Some Sample.json_ok)
                           (Some (Hmac.hexdigest (u "testsecret")
                                    Sample.body_ok))))) = 200)
    by (vm_compute; reflexivity).
  split; [exact H|].
  apply (webhook_accepted_is_stored iso_datetime); exact H.
Defined.

Lemma webhook_retry_witness :
  let req := Request.mk Sample.body_ok (Some Sample.json_ok)
               (Some (Hmac.hexdigest (u "testsecret") Sample.body_ok)) in
  let first := webhook_endpoint iso_datetime Sample.cfg [] Sample.now1 req in
  Response.status_code (snd first) = 200
  /\ webhook_endpoint iso_datetime Sample.cfg (fst first) Sample.now2 req
     = (fst first, Response.mk 200 [] (Some "duplicate"%string)).
Proof.
  assert (H : Response.status_code
                (snd (webhook_endpoint iso_datetime Sample.cfg [] Sample.now1
                        (Request.mk Sample.body_ok (Some Sample.json_ok)
                           (Some (Hmac.hexdigest (u "testsecret")
                                    Sample.body_ok))))) = 200)
    by (vm_compute; reflexivity).
  split; [exact H|].
  apply (webhook_retry iso_datetime); exact H.
Defined.

Lemma webhook_keeps_rows_valid_witness :
  let req := Request.mk Sample.body_ok (Some Sample.json_ok)
               (Some (Hmac.hexdigest (u "testsecret") Sample.body_ok)) in
  forallb row_valid Sample.db_utc = true
  /\ forallb row_valid
       (fst (webhook_endpoint iso_datetime Sample.cfg Sample.db_utc
               Sample.now1 req)) = true.
Proof.
  split; [reflexivity|].
  apply (webhook_keeps_rows_valid iso_datetime); reflexivity.
Defined.


(** ** The read endpoint *)

Lemma get_messages_page_length (db : table) (limit offset : Z)
    (f : option str) (s : option datetime) (q : option str)
    (messages : list Message.t) (total : Z) :
  0 <= limit -> 0 <= offset ->
  get_messages db limit offset f s q = Ok (messages, total) ->
  len messages = Z.min limit (Z.max 0 (total - offset)).
Proof.
  intros Hl Ho H. unfold get_messages in H.
  destruct (traverse row_to_message _) as [ms|] eqn:E; [|discriminate].
  injection H as <- <-.
  apply traverse_Forall2, Forall2_length in E.
  unfold len at 1. rewrite <- E. fold (len (select_page db limit offset f s q)).
  unfold select_page. rewrite limit_offset_length by assumption.
  unfold len; rewrite order_by_length; reflexivity.
Qed.

Lemma query_limit_cases (v : option Z) :
  (exists n, Main.query_limit v = Ok n
             /\ n = match v with Some k => k | None => 50 end
             /\ 1 <= n <= 100
             /\ ~ (exists k, v = Some k /\ (k < 1 \/ 100 < k)))
  \/ (exists e, Main.query_limit v = Raise e
                /\ exists k, v = Some k /\ (k < 1 \/ 100 < k)).
Proof.
  unfold Main.query_limit. destruct v as [k|].
  - destruct (Z.ltb_spec k 1); [right; eexists; split; [reflexivity|]; eauto|].
    destruct (Z.ltb_spec 100 k); [right; eexists; split; [reflexivity|]; eauto|].
    left; exists k; repeat split; try lia.
    intros (k' & E & B); injection E as <-; lia.
  - left; exists 50; repeat split; try lia.
    intros (k' & E & _); discriminate.
Qed.

Lemma query_offset_cases (v : option Z) :
  (exists n, Main.query_offset v = Ok n
             /\ n = match v with Some k => k | None => 0 end
             /\ 0 <= n
             /\ ~ (exists k, v = Some k /\ k < 0))
  \/ (exists e, Main.query_offset v = Raise e
                /\ exists k, v = Some k /\ k < 0).
Proof.
  unfold Main.query_offset. destruct v as [k|].
  - destruct (Z.ltb_spec k 0); [right; eexists; split; [reflexivity|]; eauto|].
    left; exists k; repeat split; try lia.
    intros (k' & E & B); injection E as <-; lia.
  - left; exists 0; repeat split; try lia.
    intros (k' & E & _); discriminate.
Qed.

(** X24: when [GET /messages] answers 200, the database was reachable, the
    body holds the page and the total [MessageStorage.get_messages] returns
    for the limit and offset it echoes, the limit is the one asked for, or
    50, and lies between 1 and 100, the offset is not negative, and the page
    has [min limit (total - offset)] messages, never more than 100. *)
Theorem get_messages_endpoint_page (m : medium) (query : Main.messages_query)
    (body : MessageListResponse.t) :
  Main.get_messages m query = Http200 body ->
  exists db,
    m = Reachable db
    /\ get_messages db (MessageListResponse.limit body)
         (MessageListResponse.offset body) (Main.from_ query)
         (Main.since query) (Main.q query)
       = Ok (MessageListResponse.data body, MessageListResponse.total body)
    /\ MessageListResponse.limit body
       = match Main.limit query with Some n => n | None => 50 end
    /\ MessageListResponse.offset body
       = match Main.offset query with Some n => n | None => 0 end
    /\ 1 <= MessageListResponse.limit body <= 100
    /\ 0 <= MessageListResponse.offset body
    /\ len (MessageListResponse.data body)
       = Z.min (MessageListResponse.limit body)
           (Z.max 0 (MessageListResponse.total body
                     - MessageListResponse.offset body))
    /\ len (MessageListResponse.data body) <= 100.
Proof.
  unfold Main.get_messages. intros H.
  destruct (query_limit_cases (Main.limit query))
    as [(limit & E1 & Hl & Bl & _)|(e & E1 & _)]; rewrite E1 in H;
    [|destruct (Main.query_offset (Main.offset query)); discriminate].
  destruct (query_offset_cases (Main.offset query))
    as [(offset & E2 & Ho & Bo & _)|(e & E2 & _)]; rewrite E2 in H;
    [|discriminate].
  destruct m as [db|]; [|discriminate]. simpl in H.
  destruct (get_messages db limit offset (Main.from_ query) (Main.since query)
              (Main.q query)) as [[ms total]|] eqn:G; [|discriminate].
  injection H as <-. simpl. exists db.
  assert (L : len ms = Z.min limit (Z.max 0 (total - offset)))
    by (apply (get_messages_page_length db limit offset (Main.from_ query)
                 (Main.since query) (Main.q query)); [lia | lia | exact G]).
  repeat split; auto; lia.
Qed.

Lemma get_messages_endpoint_page_witness :
  exists body,
    Main.get_messages (Reachable Sample.db_utc)
      (Main.mk_query (Some 1) None None None None) = Http200 body
    /\ exists db,
         Reachable Sample.db_utc = Reachable db
         /\ get_messages db (MessageListResponse.limit body)
              (MessageListResponse.offset body) None None None
            = Ok (MessageListResponse.data body, MessageListResponse.total body)
         /\ MessageListResponse.limit body = 1
         /\ MessageListResponse.offset body = 0
         /\ 1 <= MessageListResponse.limit body <= 100
         /\ 0 <= MessageListResponse.offset body
         /\ len (MessageListResponse.data body)
            = Z.min (MessageListResponse.limit body)
                (Z.max 0 (MessageListResponse.total body
                          - MessageListResponse.offset body))
         /\ len (MessageListResponse.data body) <= 100.
Proof.
  eexists. split; [vm_compute; reflexivity|].
  apply (get_messages_endpoint_page (Reachable Sample.db_utc)
           (Main.mk_query (Some 1) None None None None)).
  vm_compute; reflexivity.
Defined.


(** ** Logging and metrics *)

Lemma inc_same (c : counter) (l : list string) : inc c l l = c l + 1.
Proof. unfold inc. destruct (list_eq_dec string_dec l l); congruence. Qed.

Lemma inc_other (c : counter) (l l' : list string) :
  l' <> l -> inc c l l' = c l'.
Proof. unfold inc. intros N. destruct (list_eq_dec string_dec l' l); congruence. Qed.

Lemma insert_message_length (db : table) (now : datetime) (id f t : str)
    (ts : datetime) (x : option str) :
  len (fst (insert_message db now id f t ts x))
  = len db + (if snd (insert_message db now id f t ts x) then 1 else 0).
Proof.
  destruct (has_key db id) eqn:K.
  - rewrite insert_message_duplicate by exact K. simpl. lia.
  - rewrite insert_message_created by exact K. simpl.
    unfold len. rewrite length_app. simpl. lia.
Qed.

Ltac inc_norm :=
  repeat match goal with
  | |- context [inc ?c ?l ?l'] =>
      first [ rewrite (inc_other c l l') by (vm_compute; discriminate)
            | change (inc c l l') with (inc c l' l'); rewrite (inc_same c l') ]
  end.

Ltac counters :=
  unfold http_webhook_total, webhook_results_total;
  cbn [http_requests_total webhook_requests_total request_latency_ms];
  inc_norm; try lia.

Section ObservabilityFacts.

Variable duration : Type.
Variable round2 : duration -> duration.
Variable datetime_validator : json -> option datetime.



(** What one [POST /webhook] adds to the records and to the counters. *)
Lemma post_webhook_step (E : bool) (cfg : Config.t) (utcnow : datetime)
    (request_id : str) (handler_ms total_ms : duration) (req : Request.t)
    (a : app_state duration) :
  let out := post_webhook duration round2 datetime_validator E cfg utcnow
               request_id handler_ms total_ms req a in
  let a' := fst out in
  let status := fst (snd out) in
  let m := metrics duration a in
  let m' := metrics duration a' in
  let one := if E then 1 else 0 in
  (E = false -> m' = m)
  /\ webhook_requests_total duration m' ["created"]%string
     - webhook_requests_total duration m ["created"]%string
     = one * (len (storage duration a') - len (storage duration a))
  /\ http_webhook_total m' = http_webhook_total m + one
  /\ len (request_latency_ms duration m')
     = len (request_latency_ms duration m) + one
  /\ ((status = 422 /\ records duration a' = records duration a
       /\ webhook_results_total m' = webhook_results_total m)
      \/ ((status = 200 \/ status = 401 \/ status = 500)
          /\ webhook_results_total m' = webhook_results_total m + one
          /\ exists rec,
               records duration a' = records duration a ++ [rec]
               /\ logger_name duration rec = "app.webhook"%string
               /\ dict_get duration "status" (extra_fields duration rec)
                  = Some (LInt duration status)
               /\ (truthy request_id = true ->
                   dict_get duration "request_id" (extra_fields duration rec)
                   = Some (LText duration request_id)))).
Proof.
  unfold post_webhook, logging_middleware, webhook_endpoint_observed.
  cbn zeta. cbn [storage metrics request_id_var records].
  destruct (request_validation datetime_validator req) as [[payload sig]|errs].
  2:{ destruct E; cbn -[Z.mul Z.add Z.sub len inc];
      (split; [intros F; try discriminate F; reflexivity|]);
      (split; [counters|]); (split; [counters|]);
      (split; [unfold len; cbn [List.length]; lia|]);
      left; (split; [reflexivity|]); (split; [reflexivity|]); counters. }
  destruct (verify_signature cfg (Request.body req) sig) as [[|]|].
  - pose proof (insert_message_length (storage duration a) utcnow
                  (WebhookPayload.message_id payload)
                  (WebhookPayload.from_ payload) (WebhookPayload.to payload)
                  (WebhookPayload.ts payload) (WebhookPayload.text payload)) as L.
    destruct (insert_message _ _ _ _ _ _ _) as [db' b]. cbn [fst snd] in L.
    destruct E, b; cbn -[Z.mul Z.add Z.sub len inc];
      (split; [intros F; try discriminate F; reflexivity|]);
      (split; [counters|]); (split; [counters|]);
      (split; [unfold len; cbn [List.length]; lia|]);
      right; (split; [tauto|]); (split; [counters|]);
      (eexists; split; [reflexivity|]); (split; [reflexivity|]);
      (split; [destruct (truthy request_id); reflexivity|]);
      intros T; rewrite T; reflexivity.
  - destruct E; cbn -[Z.mul Z.add Z.sub len inc];
      (split; [intros F; try discriminate F; reflexivity|]);
      (split; [counters|]); (split; [counters|]);
      (split; [unfold len; cbn [List.length]; lia|]);
      right; (split; [tauto|]); (split; [counters|]);
      (eexists; split; [reflexivity|]); (split; [reflexivity|]);
      (split; [destruct (truthy request_id); reflexivity|]);
      intros T; rewrite T; reflexivity.
  - destruct E; cbn -[Z.mul Z.add Z.sub len inc];
      (split; [intros F; try discriminate F; reflexivity|]);
      (split; [counters|]); (split; [counters|]);
      (split; [unfold len; cbn [List.length]; lia|]);
      right; (split; [tauto|]); (split; [counters|]);
      (eexists; split; [reflexivity|]); (split; [reflexivity|]);
      (split; [destruct (truthy request_id); reflexivity|]);
      intros T; rewrite T; reflexivity.
Qed.

(** X29: over any sequence of [POST /webhook] requests with metrics
    enabled, [webhook_requests_total{result=created}] grows by exactly the
    number of rows the table gains; with metrics disabled the collectors
    never change. *)
Theorem webhook_created_counter_counts_rows (cfg : Config.t)
    (calls : list (webhook_call duration)) (a : app_state duration) :
  let on := post_webhooks round2 datetime_validator true cfg calls a in
  let off := post_webhooks round2 datetime_validator false cfg calls a in
  webhook_requests_total duration (metrics duration on) ["created"]%string
  - webhook_requests_total duration (metrics duration a) ["created"]%string
  = len (storage duration on) - len (storage duration a)
  /\ metrics duration off = metrics duration a.
Proof.
  cbv zeta. unfold post_webhooks. revert a.
  induction calls as [|c calls IH]; intros a; cbn [fold_left].
  - split; [lia | reflexivity].
  - split.
    + destruct (IH (fst (post_webhook duration round2 datetime_validator true
                           cfg (call_utcnow c) (call_request_id c)
                           (call_handler_ms c) (call_total_ms c)
                           (call_request c) a))) as [H _].
      destruct (post_webhook_step true cfg (call_utcnow c) (call_request_id c)
                  (call_handler_ms c) (call_total_ms c) (call_request c) a)
        as (_ & S & _).
      lia.
    + destruct (IH (fst (post_webhook duration round2 datetime_validator false
                           cfg (call_utcnow c) (call_request_id c)
                           (call_handler_ms c) (call_total_ms c)
                           (call_request c) a))) as [_ H].
      destruct (post_webhook_step false cfg (call_utcnow c) (call_request_id c)
                  (call_handler_ms c) (call_total_ms c) (call_request c) a)
        as (S & _).
      rewrite H. apply S. reflexivity.
Qed.


End ObservabilityFacts.
